(** * FFmpeg tools: process runners, capture session, probe parser, filename sanitizer

    A shallow embedding of the [FFmpegUtils] class and of the
    [execute-ffmpeg-command] tool.

    - JavaScript strings are sequences of UTF-16 code units: [list N].
    - Plain JavaScript objects used as string-keyed maps are [gmap]s.
    - Promises and child processes are modelled by the events the Node
      runtime delivers to the callbacks the code registers. *)

From Stdlib Require Import ZArith NArith Ascii String DecimalString.
From stdpp Require Import gmap list.

Local Open Scope N_scope.

(** ** JavaScript strings *)

Module JS.

(** Literals of the source, written as Rocq strings (all of them ASCII). *)
Fixpoint lit (s : string) : list N :=
  match s with
  | EmptyString => []
  | String a s' => N_of_ascii a :: lit s'
  end.

Definition between (lo hi c : N) : bool := (lo <=? c) && (c <=? hi).

(** [WhiteSpace] and [LineTerminator] of ECMAScript: what [trim] strips and
    what the regular expression class [\s] matches. *)
Definition is_space (c : N) : bool :=
  between 9 13 c || (c =? 32) || (c =? 160) || (c =? 5760)
  || between 8192 8202 c || (c =? 8232) || (c =? 8233) || (c =? 8239)
  || (c =? 8287) || (c =? 12288) || (c =? 65279).

Fixpoint trimStart (s : list N) : list N :=
  match s with
  | c :: s' => if is_space c then trimStart s' else s
  | [] => []
  end.

Definition trimEnd (s : list N) : list N := rev (trimStart (rev s)).

(** [String.prototype.trim] *)
Definition trim (s : list N) : list N := trimEnd (trimStart s).

(** [String.prototype.startsWith] *)
Fixpoint startsWith (p s : list N) : bool :=
  match p, s with
  | [], _ => true
  | a :: p', b :: s' => (a =? b) && startsWith p' s'
  | _ :: _, [] => false
  end.

(** [String.prototype.includes] for a one-unit needle. *)
Definition includes (c : N) (s : list N) : bool := existsb (N.eqb c) s.

(** [String.prototype.split] with a one-unit separator and no limit: the
    pieces between all occurrences of the separator; never empty. *)
Fixpoint split (sep : N) (s : list N) : list (list N) :=
  match s with
  | [] => [[]]
  | c :: s' =>
      if c =? sep then [] :: split sep s'
      else match split sep s' with
           | p :: ps => (c :: p) :: ps
           | [] => [[c]]
           end
  end.

(** [split(sep, limit)]: the array of all pieces, truncated to [limit]. *)
Definition split_limit (sep : N) (limit : nat) (s : list N) : list (list N) :=
  take limit (split sep s).

(** [Array.prototype.join] with a one-unit separator: the text whose lines
    (for the separator 10) are [parts]. *)
Fixpoint join (sep : N) (parts : list (list N)) : list N :=
  match parts with
  | [] => []
  | [p] => p
  | p :: ps => p ++ sep :: join sep ps
  end.

(** The part of [s] in front of the first [sep], and the part behind it. *)
Fixpoint before (sep : N) (s : list N) : list N :=
  match s with
  | [] => []
  | c :: s' => if c =? sep then [] else c :: before sep s'
  end.

Fixpoint after (sep : N) (s : list N) : list N :=
  match s with
  | [] => []
  | c :: s' => if c =? sep then s' else after sep s'
  end.

(** Template-literal rendering of an integral number. *)
Definition of_Z (z : Z) : list N := lit (NilZero.string_of_int (Z.to_int z)).

End JS.

(** ** The [FFmpegUtils] class *)

Module FFmpegUtils.

(** *** Filename sanitizer *)

Definition underscore : N := 95.

Definition is_underscore (c : N) : bool := c =? underscore.

(** The complement of the class [[^a-zA-Z0-9.-]]. *)
Definition allowed_char (c : N) : bool :=
  JS.between 97 122 c || JS.between 65 90 c || JS.between 48 57 c
  || (c =? 46) || (c =? 45).

(** [.replace(/[^a-zA-Z0-9.-]/g, '_')] *)
Definition replace_disallowed (s : list N) : list N :=
  (fun c => if allowed_char c then c else underscore) <$> s.

(** [.toLowerCase()].  It is applied to the output of [replace_disallowed],
    whose units are all ASCII, where lower-casing moves A-Z to a-z and
    leaves every other unit alone. *)
Definition lower_unit (c : N) : N := if JS.between 65 90 c then c + 32 else c.

Definition toLowerCase (s : list N) : list N := lower_unit <$> s.

(** [.replace(/_{2,}/g, '_')]: every maximal run of two or more underscores
    becomes one underscore (the last of the run is the one kept here). *)
Fixpoint collapse_underscores (s : list N) : list N :=
  match s with
  | [] => []
  | c :: s' =>
      if is_underscore c then
        match s' with
        | d :: _ => if is_underscore d then collapse_underscores s'
                    else c :: collapse_underscores s'
        | [] => [c]
        end
      else c :: collapse_underscores s'
  end.

(** The [^_] alternative of [/^_|_$/g]. *)
Definition strip_leading (s : list N) : list N :=
  match s with
  | c :: s' => if is_underscore c then s' else s
  | [] => []
  end.

(** The [_$] alternative, on what the first alternative left. *)
Fixpoint strip_trailing (s : list N) : list N :=
  match s with
  | [] => []
  | [c] => if is_underscore c then [] else [c]
  | c :: s' => c :: strip_trailing s'
  end.

(** [.replace(/^_|_$/g, '')] *)
Definition strip_edges (s : list N) : list N := strip_trailing (strip_leading s).

Definition fallback_name : list N := JS.lit "uploaded_file".

(** The chain of four string operations bound to [sanitized]. *)
Definition sanitized (filename : list N) : list N :=
  strip_edges (collapse_underscores (toLowerCase (replace_disallowed filename))).

(** [FFmpegUtils.sanitizeFilename]: [sanitized || 'uploaded_file']; the empty
    string is the only falsy string. *)
Definition sanitizeFilename (filename : list N) : list N :=
  match sanitized filename with
  | [] => fallback_name
  | s => s
  end.

(** What a sanitized name is made of: lower-case letters, digits, dot,
    hyphen and the separator. *)
Definition output_char (c : N) : bool :=
  JS.between 97 122 c || JS.between 48 57 c || (c =? 46) || (c =? 45)
  || is_underscore c.

Definition leading_underscore (s : list N) : bool :=
  match s with
  | c :: _ => is_underscore c
  | [] => false
  end.

Fixpoint trailing_underscore (s : list N) : bool :=
  match s with
  | [] => false
  | [c] => is_underscore c
  | _ :: s' => trailing_underscore s'
  end.

(** Two separators next to each other, somewhere in [s]. *)
Fixpoint double_underscore (s : list N) : bool :=
  match s with
  | c :: s' => (is_underscore c && leading_underscore s') || double_underscore s'
  | [] => false
  end.

Definition clean (s : list N) : bool :=
  forallb output_char s && negb (double_underscore s)
  && negb (leading_underscore s) && negb (trailing_underscore s).

(** *** Process runners *)

Definition uploadDir : list N := JS.lit "./uploads".

(** The delay, in milliseconds, every runner passes to [setTimeout]. *)
Definition timeout_ms : Z := 600000.

Record CommandResult : Type := mkCommandResult {
  success : bool;
  output : list N;
  error : option (list N)
}.

(** The value every timer callback resolves with. *)
Definition timed_out : CommandResult :=
  mkCommandResult false [] (Some (JS.lit "Command timed out")).

(** [workingDir || this.uploadDir]: [undefined] and the empty string are falsy. *)
Definition cwd_or_default (workingDir : option (list N)) : list N :=
  match workingDir with
  | Some (c :: d) => c :: d
  | _ => uploadDir
  end.

(** One pending call of a runner: the two accumulators of the argv runners,
    the promise ([None] while pending) and the number of [proc.kill()] calls
    made so far. *)
Record runner : Type := mkRunner {
  stdout : list N;
  stderr : list N;
  promise : option CommandResult;
  kills : nat
}.

Definition pending : runner := mkRunner [] [] None 0.

(** [resolve(v)]: settles a pending promise, does nothing to a settled one. *)
Definition resolve (v : CommandResult) (r : runner) : runner :=
  match promise r with
  | None => mkRunner (stdout r) (stderr r) (Some v) (kills r)
  | Some _ => r
  end.

(** [proc.kill()] *)
Definition kill (r : runner) : runner :=
  mkRunner (stdout r) (stderr r) (promise r) (S (kills r)).

(** The timer callback, the same in the three runners. *)
Definition on_timeout (r : runner) : runner := resolve timed_out (kill r).

(** What the runtime delivers to a call of [executeCommand]: the completion
    callback of [exec], with [error.message] when [error] is set, or the
    expiry of the timer. *)
Inductive exec_event : Type :=
| ExecDone (err : option (list N)) (out errout : list N)
| ExecTimer.

Definition executeCommand_on (r : runner) (e : exec_event) : runner :=
  match e with
  | ExecDone err out errout =>
      let output := out ++ errout in
      match err with
      | Some message => resolve (mkCommandResult false output (Some message)) r
      | None => resolve (mkCommandResult true output None) r
      end
  | ExecTimer => on_timeout r
  end.

(** What the runtime delivers to a call of an argv runner.  The exit code of
    ['close'] is [null] when a signal ended the process. *)
Inductive spawn_event : Type :=
| StdoutData (data : list N)
| StderrData (data : list N)
| Close (code : option Z)
| Error (message : list N)
| Timer.

(** [`Process exited with code ${code}`] *)
Definition exit_message (code : option Z) : list N :=
  JS.lit "Process exited with code "
  ++ match code with Some c => JS.of_Z c | None => JS.lit "null" end.

(** The handlers of [executeFFmpegCommand] and of [executeFFprobeCommand];
    the two bodies differ in the call of [spawn] only. *)
Definition argv_on (r : runner) (e : spawn_event) : runner :=
  match e with
  | StdoutData data => mkRunner (stdout r ++ data) (stderr r) (promise r) (kills r)
  | StderrData data => mkRunner (stdout r) (stderr r ++ data) (promise r) (kills r)
  | Close code =>
      let output := stdout r ++ stderr r in
      match code with
      | Some 0%Z => resolve (mkCommandResult true output None) r
      | _ => resolve (mkCommandResult false output (Some (exit_message code))) r
      end
  | Error message => resolve (mkCommandResult false [] (Some message)) r
  | Timer => on_timeout r
  end.

(** The process a runner starts and the timer it arms. *)
Record launch : Type := mkLaunch {
  shell : bool;
  file : list N;
  args : list (list N);
  cwd : option (list N);
  timer : Z
}.

Definition executeCommand_launch (command : list N) (workingDir : option (list N)) : launch :=
  mkLaunch true command [] (Some (cwd_or_default workingDir)) timeout_ms.

Definition executeFFmpegCommand_launch (args : list (list N)) (workingDir : option (list N)) : launch :=
  mkLaunch false (JS.lit "ffmpeg") args (Some (cwd_or_default workingDir)) timeout_ms.

Definition executeFFprobeCommand_launch (args : list (list N)) : launch :=
  mkLaunch false (JS.lit "ffprobe") args None timeout_ms.

(** [exec] and [spawn] check their arguments before they create a process:
    an empty file name or command, or U+0000 in the command, in an argument
    or in the working directory, makes them throw. *)
Definition spawn_accepts (l : launch) : bool :=
  negb (bool_decide (file l = []))
  && forallb (fun a => negb (JS.includes 0 a))
             (file l :: args l ++ match cwd l with Some d => [d] | None => [] end).

(** What [await] gives back: the value of a fulfilled promise, or the
    exception of a rejected one, as the message of the [Error] thrown
    ([None] when the thrown value is not an [Error]).  The promise of a
    runner is rejected only when [exec] or [spawn] throws in its executor,
    that is before any process exists and before the timer is armed; the
    handlers themselves only resolve. *)
Inductive awaited (A : Type) : Type :=
| Fulfilled (a : A)
| Thrown (message : option (list N)).

Arguments Fulfilled {A} a.
Arguments Thrown {A} message.

(** [error instanceof Error ? error.message : 'Unknown error'] *)
Definition catch_message (message : option (list N)) : list N :=
  match message with
  | Some m => m
  | None => JS.lit "Unknown error"
  end.

(** A call of a runner against the events of its process, oldest first. *)
Definition executeCommand (events : list exec_event) : runner :=
  fold_left executeCommand_on events pending.

Definition executeFFmpegCommand (events : list spawn_event) : runner :=
  fold_left argv_on events pending.

Definition executeFFprobeCommand (events : list spawn_event) : runner :=
  fold_left argv_on events pending.

(** Output chunks: the events that leave the promise pending. *)
Definition is_data (e : spawn_event) : bool :=
  match e with
  | StdoutData _ | StderrData _ => true
  | _ => false
  end.

Definition stdout_of (e : spawn_event) : list N :=
  match e with StdoutData d => d | _ => [] end.

Definition stderr_of (e : spawn_event) : list N :=
  match e with StderrData d => d | _ => [] end.

(** *** Capture session *)

(** A child process started by [exec(command)] for a capture, with the
    number of [kill()] calls it received. *)
Record child : Type := mkChild {
  child_command : list N;
  child_kills : nat
}.

(** The static fields [captureProcess] and [captureOutputFile], and every
    child process created so far; a handle is a position in [children]. *)
Record session : Type := mkSession {
  children : list child;
  captureProcess : option nat;
  captureOutputFile : option (list N)
}.

Definition no_session : session := mkSession [] None None.

Definition kill_child (c : child) : child :=
  mkChild (child_command c) (S (child_kills c)).

(** [exec(command)], called without options; no timer is armed for it. *)
Definition capture_launch (command : list N) : launch :=
  mkLaunch true command [] None 0.

(** [startCapture].  [exec(command)] returns a child process when it
    accepts the command and the platform ([platform]) lets it create one;
    otherwise it throws, after the kill and after [captureOutputFile] was
    assigned, and [startCapture] throws with it, leaving [captureProcess]
    as it was. *)
Definition startCapture (command outputFile : list N) (platform : bool) (s : session)
    : session :=
  let children1 :=
    match captureProcess s with
    | Some h => alter kill_child h (children s)
    | None => children s
    end in
  if spawn_accepts (capture_launch command) && platform then
    mkSession (children1 ++ [mkChild command 0])
              (Some (length children1))
              (Some outputFile)
  else
    mkSession children1 (captureProcess s) (Some outputFile).

Record stop_result : Type := mkStop {
  status : list N;
  filename : option (list N)
}.

Definition stopCapture (s : session) : stop_result * session :=
  match captureProcess s with
  | Some h =>
      (mkStop (JS.lit "stopped")
              match captureOutputFile s with
              | Some (c :: f) => Some (c :: f)
              | _ => None
              end,
       mkSession (alter kill_child h (children s)) None None)
  | None => (mkStop (JS.lit "not_running") None, s)
  end.

(** The calls a client can make on the session, and a run of them. *)
Inductive capture_call : Type :=
| Start (command outputFile : list N) (platform : bool)
| Stop.

Definition capture_step (s : session) (c : capture_call) : session :=
  match c with
  | Start command outputFile platform => startCapture command outputFile platform s
  | Stop => snd (stopCapture s)
  end.

(** The owned handle names a child process, and every other child process
    has been sent a kill. *)
Definition others_killed (s : session) : Prop :=
  (forall h, captureProcess s = Some h -> (h < length (children s))%nat)
  /\ forall h c, children s !! h = Some c -> captureProcess s <> Some h ->
                 (1 <= child_kills c)%nat.

(** *** Probe output parser *)

(** [o[k] = v] on a plain object, for a string [v]: the inherited setter of
    [__proto__] ignores a value that is neither an object nor [null], every
    other key becomes an own property. *)
Definition set_property (k v : list N) (o : gmap (list N) (list N)) : gmap (list N) (list N) :=
  if decide (k = JS.lit "__proto__") then o else <[k:=v]> o.

Record ProbeResult : Type := mkProbe {
  format : gmap (list N) (list N);
  streams : list (gmap (list N) (list N))
}.

(** The locals of the loop: [result], [currentStream] and [inStream]. *)
Record parser : Type := mkParser {
  result : ProbeResult;
  currentStream : gmap (list N) (list N);
  inStream : bool
}.

Definition parser_init : parser := mkParser (mkProbe ∅ []) ∅ false.

(** [if (Object.keys(currentStream).length > 0) result.streams.push(currentStream)] *)
Definition push_current (cur : gmap (list N) (list N)) (r : ProbeResult) : ProbeResult :=
  if (0 <? size cur)%nat then mkProbe (format r) (streams r ++ [cur]) else r.

(** The body of the loop.  [None] stands for the [TypeError] of calling
    [trim] on [undefined], which the enclosing [try] would catch. *)
Definition parse_line (st : parser) (line : list N) : option parser :=
  if JS.startsWith (JS.lit "[FORMAT]") line then
    Some (mkParser (result st) (currentStream st) false)
  else if JS.startsWith (JS.lit "[STREAM]") line then
    Some (mkParser (push_current (currentStream st) (result st)) ∅ true)
  else if JS.includes 61 line then
    match JS.split_limit 61 2 line with
    | key :: value :: _ =>
        if inStream st then
          Some (mkParser (result st)
                         (set_property (JS.trim key) (JS.trim value) (currentStream st))
                         true)
        else
          Some (mkParser (mkProbe (set_property (JS.trim key) (JS.trim value)
                                                (format (result st)))
                                  (streams (result st)))
                         (currentStream st)
                         false)
    | _ => None
    end
  else Some st.

Fixpoint parse_lines (st : parser) (lines : list (list N)) : option parser :=
  match lines with
  | [] => Some st
  | line :: lines' =>
      match parse_line st line with
      | Some st' => parse_lines st' lines'
      | None => None
      end
  end.

(** The flush after the loop and the returned object. *)
Definition parse_finish (st : parser) : ProbeResult :=
  push_current (currentStream st) (result st).

Inductive parse_outcome : Type :=
| Parsed (r : ProbeResult)
| Failed (error : list N).

Definition parseFFprobeOutput (output : list N) : parse_outcome :=
  match parse_lines parser_init (JS.split 10 output) with
  | Some st => Parsed (parse_finish st)
  | None => Failed (JS.lit "Failed to parse ffprobe output")
  end.

(** The record a stream section builds from the lines behind its marker. *)
Definition section_record (body : list (list N)) : gmap (list N) (list N) :=
  match parse_lines (mkParser (mkProbe ∅ []) ∅ true) body with
  | Some st => currentStream st
  | None => ∅
  end.

(** Sections, each a marker line and its body, laid out as lines. *)
Definition section_lines (sections : list (list N * list (list N))) : list (list N) :=
  concat ((fun s => fst s :: snd s) <$> sections).

(** What a flush of [cur] appends to [streams]. *)
Definition emitted (cur : gmap (list N) (list N)) : list (gmap (list N) (list N)) :=
  if (0 <? size cur)%nat then [cur] else [].

(** The probe text of the documented scenario. *)
Definition scenario : list N :=
  JS.join 10 [JS.lit "[FORMAT]"; JS.lit "duration=12.3"; JS.lit "[STREAM]";
              JS.lit "codec_name=h264"; JS.lit "[STREAM]"; JS.lit "codec_name=aac"; []].

End FFmpegUtils.

(** ** The [execute-ffmpeg-command] tool *)

Module ExecuteFFmpegCommandTool.

Import FFmpegUtils.

(** An asynchronous computation of the tool layer: it returns, or awaits
    [FFmpegUtils.executeCommand], which starts a shell process, and goes on
    with the value of its promise or with the exception, when [exec] threw
    and no process was started. *)
Inductive task (A : Type) : Type :=
| Return (a : A)
| AwaitExecuteCommand (l : launch) (k : awaited CommandResult -> task A).

Arguments Return {A} a.
Arguments AwaitExecuteCommand {A} l k.

(** The processes a task starts, when [run] tells how each call of the
    runner ends: a call that throws has started none. *)
Fixpoint launches {A : Type} (run : launch -> awaited CommandResult) (t : task A)
    : list launch :=
  match t with
  | Return _ => []
  | AwaitExecuteCommand l k =>
      match run l with
      | Fulfilled _ => l :: launches run (k (run l))
      | Thrown _ => launches run (k (run l))
      end
  end.

(** The value a task returns. *)
Fixpoint returned {A : Type} (run : launch -> awaited CommandResult) (t : task A) : A :=
  match t with
  | Return a => a
  | AwaitExecuteCommand l k => returned run (k (run l))
  end.

(** The fields of [context] the schema declares. *)
Record context : Type := mkContext {
  command : list N;
  inputFile : option (list N);
  outputFile : option (list N);
  workingDirectory : option (list N)
}.

(** The envelope the tool returns; absent fields are [None]. *)
Record envelope : Type := mkEnvelope {
  env_success : bool;
  env_message : list N;
  env_output : option (list N);
  env_outputFile : option (list N);
  env_error : option (list N)
}.

Definition invalid_command : envelope :=
  mkEnvelope false (JS.lit "Only ffmpeg and ffprobe commands are allowed")
             None None (Some (JS.lit "Invalid command")).

(** [command.replace(/^ffmpeg\s/, 'ffmpeg -y ')]: the pattern is anchored at
    the first unit of the untrimmed command and is not global. *)
Definition modifiedCommand (command : list N) : list N :=
  if JS.startsWith (JS.lit "ffmpeg") command then
    match drop 6 command with
    | c :: rest => if JS.is_space c then JS.lit "ffmpeg -y " ++ rest else command
    | [] => command
    end
  else command.

Definition execute (ctx : context) : task envelope :=
  if negb (JS.startsWith (JS.lit "ffmpeg") (JS.trim (command ctx)))
     && negb (JS.startsWith (JS.lit "ffprobe") (JS.trim (command ctx)))
  then Return invalid_command
  else
    AwaitExecuteCommand
      (executeCommand_launch (modifiedCommand (command ctx)) (workingDirectory ctx))
      (fun a =>
         match a with
         | Fulfilled result =>
             Return (mkEnvelope (success result)
                                (if success result
                                 then JS.lit "Command executed successfully"
                                 else JS.lit "Command failed")
                                (Some (output result))
                                (outputFile ctx)
                                (error result))
         | Thrown message =>
             Return (mkEnvelope false (JS.lit "Failed to execute command") None None
                                (Some (catch_message message)))
         end).

(** The command with [-y] put right behind its first six units, as the
    interface description words the injection. *)
Definition with_overwrite_flag (command : list N) : list N :=
  JS.lit "ffmpeg" ++ JS.lit " -y" ++ drop 6 command.

End ExecuteFFmpegCommandTool.

(** ** The argument-vector tools *)

Module Tools.

Import FFmpegUtils.

(** An asynchronous computation of a tool: it returns, awaits a runner of
    [FFmpegUtils], or awaits [writeFile]. *)
Inductive task (A : Type) : Type :=
| Return (a : A)
| AwaitRunner (l : launch) (k : awaited CommandResult -> task A)
| AwaitWriteFile (path data : list N) (k : awaited unit -> task A).

Arguments Return {A} a.
Arguments AwaitRunner {A} l k.
Arguments AwaitWriteFile {A} path data k.

(** The environment of a run: how each process ends and how each write ends. *)
Record world : Type := mkWorld {
  run : launch -> awaited CommandResult;
  write : list N -> list N -> awaited unit
}.

(** The value a task returns. *)
Fixpoint eval {A : Type} (w : world) (t : task A) : A :=
  match t with
  | Return a => a
  | AwaitRunner l k => eval w (k (run w l))
  | AwaitWriteFile path data k => eval w (k (write w path data))
  end.

(** The processes a task starts, in order: a runner call whose promise is
    rejected has started none. *)
Fixpoint launches {A : Type} (w : world) (t : task A) : list launch :=
  match t with
  | Return _ => []
  | AwaitRunner l k =>
      match run w l with
      | Fulfilled _ => l :: launches w (k (run w l))
      | Thrown _ => launches w (k (run w l))
      end
  | AwaitWriteFile path data k => launches w (k (write w path data))
  end.

(** The runner calls a task makes, in order, whether they start a process
    or throw. *)
Fixpoint attempts {A : Type} (w : world) (t : task A) : list launch :=
  match t with
  | Return _ => []
  | AwaitRunner l k => l :: attempts w (k (run w l))
  | AwaitWriteFile path data k => attempts w (k (write w path data))
  end.


(** [FFmpegUtils.executeFFmpegCommand(args)], no working directory given. *)
Definition ffmpeg (args : list (list N)) : launch :=
  executeFFmpegCommand_launch args None.

(** [FFmpegUtils.executeFFprobeCommand(args)] *)
Definition ffprobe (args : list (list N)) : launch :=
  executeFFprobeCommand_launch args.

(** The envelope is the one of [execute-ffmpeg-command]. *)
Import ExecuteFFmpegCommandTool(envelope, mkEnvelope, env_success, env_message,
                                env_output, env_outputFile, env_error).

(** The object returned by the [catch] block of a tool. *)
Definition caught (failure : list N) (message : option (list N)) : envelope :=
  mkEnvelope false failure None None (Some (catch_message message)).

(** The return statement that ends most tools, and their [catch] block:
    [outputFile] is the name when the run succeeded, [undefined] otherwise. *)
Definition report (done failed failure outputFilename : list N)
    (a : awaited CommandResult) : task envelope :=
  match a with
  | Fulfilled result =>
      Return (mkEnvelope (success result)
                         (if success result then done else failed)
                         (Some (output result))
                         (if success result then Some outputFilename else None)
                         (error result))
  | Thrown message => Return (caught failure message)
  end.

(** *** trim-video *)

Definition trimVideoTool (inputFilename start end_ : list N) : task envelope :=
  let outputFilename := JS.lit "trimmed_" ++ inputFilename in
  let args := [JS.lit "-i"; inputFilename; JS.lit "-ss"; start; JS.lit "-to"; end_;
               JS.lit "-c"; JS.lit "copy"; outputFilename] in
  AwaitRunner (ffmpeg args)
    (report (JS.lit "Video trimmed successfully") (JS.lit "Failed to trim video")
            (JS.lit "Failed to trim video") outputFilename).

(** *** change-frame-rate *)

Definition changeFrameRateTool (inputFilename frameRate : list N) : task envelope :=
  let outputFilename := JS.lit "fps_" ++ frameRate ++ JS.lit "_" ++ inputFilename in
  let args := [JS.lit "-i"; inputFilename; JS.lit "-r"; frameRate;
               JS.lit "-c:v"; JS.lit "libx264"; JS.lit "-preset"; JS.lit "medium";
               outputFilename] in
  AwaitRunner (ffmpeg args)
    (report (JS.lit "Frame rate changed successfully")
            (JS.lit "Failed to change frame rate")
            (JS.lit "Failed to change frame rate") outputFilename).

(** *** resize-video *)

Definition resizeVideoTool (inputFilename resolution customWidth customHeight : list N)
    : task envelope :=
  let outputFilename := JS.lit "resized_" ++ inputFilename in
  let scaleFilter :=
    if decide (resolution = JS.lit "custom")
    then JS.lit "scale=" ++ customWidth ++ JS.lit ":" ++ customHeight
    else JS.lit "scale=" ++ resolution in
  let args := [JS.lit "-i"; inputFilename; JS.lit "-vf"; scaleFilter;
               JS.lit "-c:v"; JS.lit "libx264"; JS.lit "-preset"; JS.lit "medium";
               outputFilename] in
  AwaitRunner (ffmpeg args)
    (report (JS.lit "Video resized successfully") (JS.lit "Failed to resize video")
            (JS.lit "Failed to resize video") outputFilename).

(** *** extract-bitstream *)

(** The [switch] on [streamType]: the stream specifier, or [None] for the
    [default] branch. *)
Definition stream_specifier (streamType : list N) : option (list N) :=
  if decide (streamType = JS.lit "video") then Some (JS.lit "0:v:0")
  else if decide (streamType = JS.lit "audio") then Some (JS.lit "0:a:0")
  else if decide (streamType = JS.lit "subtitle") then Some (JS.lit "0:s:0")
  else None.

Definition extractBitstreamTool (inputFilename streamType : list N) : task envelope :=
  let outputFilename :=
    JS.lit "extracted_" ++ streamType ++ JS.lit "_" ++ inputFilename in
  match stream_specifier streamType with
  | Some specifier =>
      let args := [JS.lit "-i"; inputFilename; JS.lit "-map"; specifier;
                   JS.lit "-c"; JS.lit "copy"; outputFilename] in
      AwaitRunner (ffmpeg args)
        (report (JS.lit "Bitstream extracted successfully")
                (JS.lit "Failed to extract bitstream")
                (JS.lit "Failed to extract bitstream") outputFilename)
  | None =>
      Return (mkEnvelope false (JS.lit "Invalid stream type") None None
                (Some (JS.lit "Stream type must be video, audio, or subtitle")))
  end.

(** *** Tools with numeric parameters *)

Section Numbers.

(** JavaScript numbers and their rendering in a template literal. *)
Context {number : Type} (show : number -> list N).

Inductive image_format : Type := gif | webp.

(** [`${format}`] *)
Definition format_name (f : image_format) : list N :=
  match f with gif => JS.lit "gif" | webp => JS.lit "webp" end.

Definition paletteFile : list N := JS.lit "palette.png".

Definition convertToGifWebpTool
    (inputFilename startTime duration : list N) (format : image_format)
    (scaleHeight fps : number) : task envelope :=
  let outputFilename :=
    JS.lit "converted_" ++ inputFilename ++ JS.lit "." ++ format_name format in
  let finish :=
    report (JS.lit "Converted to " ++ format_name format ++ JS.lit " successfully")
           (JS.lit "Failed to convert to " ++ format_name format)
           (JS.lit "Failed to convert video") outputFilename in
  match format with
  | gif =>
      let paletteArgs :=
        [JS.lit "-i"; inputFilename; JS.lit "-ss"; startTime; JS.lit "-t"; duration;
         JS.lit "-vf";
         JS.lit "fps=" ++ show fps ++ JS.lit ",scale=-1:" ++ show scaleHeight
           ++ JS.lit ":flags=lanczos,palettegen";
         JS.lit "-y"; paletteFile] in
      AwaitRunner (ffmpeg paletteArgs)
        (fun a =>
           match a with
           | Fulfilled paletteResult =>
               if negb (success paletteResult) then
                 Return (mkEnvelope false (JS.lit "Failed to generate palette")
                                    None None (error paletteResult))
               else
                 let args :=
                   [JS.lit "-i"; inputFilename; JS.lit "-i"; paletteFile;
                    JS.lit "-ss"; startTime; JS.lit "-t"; duration;
                    JS.lit "-filter_complex";
                    JS.lit "fps=" ++ show fps ++ JS.lit ",scale=-1:" ++ show scaleHeight
                      ++ JS.lit ":flags=lanczos[x];[x][1:v]paletteuse";
                    JS.lit "-y"; outputFilename] in
                 AwaitRunner (ffmpeg args) finish
           | Thrown message => Return (caught (JS.lit "Failed to convert video") message)
           end)
  | webp =>
      let args :=
        [JS.lit "-i"; inputFilename; JS.lit "-ss"; startTime; JS.lit "-t"; duration;
         JS.lit "-vf"; JS.lit "fps=" ++ show fps ++ JS.lit ",scale=-1:" ++ show scaleHeight;
         JS.lit "-c:v"; JS.lit "libwebp"; JS.lit "-quality"; JS.lit "80";
         JS.lit "-y"; outputFilename] in
      AwaitRunner (ffmpeg args) finish
  end.

Definition generateThumbnailsTool
    (inputFilename timestamp : list N) (cols rows : number) (multipleSheets : bool)
    (interval duration : list N) : task envelope :=
  let outputFilename :=
    if multipleSheets then JS.lit "thumbnails_" ++ inputFilename ++ JS.lit "_%d.jpg"
    else JS.lit "thumbnail_" ++ inputFilename ++ JS.lit ".jpg" in
  let args :=
    if multipleSheets then
      [JS.lit "-i"; inputFilename; JS.lit "-ss"; timestamp; JS.lit "-t"; duration;
       JS.lit "-vf";
       JS.lit "fps=1/" ++ interval ++ JS.lit ",scale=320:240,tile=" ++ show cols
         ++ JS.lit "x" ++ show rows;
       JS.lit "-y"; outputFilename]
    else
      [JS.lit "-i"; inputFilename; JS.lit "-ss"; timestamp;
       JS.lit "-vframes"; JS.lit "1"; JS.lit "-vf"; JS.lit "scale=320:240";
       JS.lit "-y"; outputFilename] in
  AwaitRunner (ffmpeg args)
    (report (JS.lit "Thumbnails generated successfully")
            (JS.lit "Failed to generate thumbnails")
            (JS.lit "Failed to generate thumbnails") outputFilename).

End Numbers.

(** *** analyze-media *)

Record analysis_envelope : Type := mkAnalysis {
  an_success : bool;
  an_message : list N;
  an_analysis : option parse_outcome;
  an_output : option (list N);
  an_error : option (list N)
}.

Definition analyzeMediaTool (inputFilename : list N) : task analysis_envelope :=
  let args := [JS.lit "-v"; JS.lit "quiet"; JS.lit "-print_format"; JS.lit "json";
               JS.lit "-show_format"; JS.lit "-show_streams"; inputFilename] in
  AwaitRunner (ffprobe args)
    (fun a =>
       match a with
       | Fulfilled result =>
           if success result then
             Return (mkAnalysis true (JS.lit "Media analysis completed")
                                (Some (parseFFprobeOutput (output result)))
                                (Some (output result)) None)
           else
             Return (mkAnalysis false (JS.lit "Failed to analyze media")
                                None None (error result))
       | Thrown message =>
           Return (mkAnalysis false (JS.lit "Failed to analyze media") None None
                              (Some (catch_message message)))
       end).

(** *** batch-process *)

Record batch_entry : Type := mkEntry {
  entry_filename : list N;
  entry_success : bool;
  entry_output : list N;
  entry_error : option (list N)
}.

Record batch_envelope : Type := mkBatch {
  batch_success : bool;
  batch_message : list N;
  batch_results : option (list batch_entry);
  batch_error : option (list N)
}.

(** The [switch] on [operation]: the arguments of the process to await, or
    [None] for the [default] branch. *)
Definition batch_args (operation filename : list N) : option (list (list N)) :=
  if decide (operation = JS.lit "convert") then
    Some [JS.lit "-i"; filename; JS.lit "-c:v"; JS.lit "libx264";
          JS.lit "-preset"; JS.lit "medium"; JS.lit "converted_" ++ filename]
  else if decide (operation = JS.lit "resize") then
    Some [JS.lit "-i"; filename; JS.lit "-vf"; JS.lit "scale=1280:720";
          JS.lit "resized_" ++ filename]
  else None.

(** [results.push({filename, success, output, error})] *)
Definition batch_push (results : list batch_entry) (filename : list N)
    (result : CommandResult) : list batch_entry :=
  results ++ [mkEntry filename (success result) (output result) (error result)].

(** The [for] loop over what is left of [filenames], then the [return]. *)
Fixpoint batch_loop (operation : list N) (filenames : list (list N))
    (results : list batch_entry) : task batch_envelope :=
  match filenames with
  | [] => Return (mkBatch true (JS.lit "Batch processing completed") (Some results) None)
  | filename :: rest =>
      match batch_args operation filename with
      | Some args =>
          AwaitRunner (ffmpeg args)
            (fun a =>
               match a with
               | Fulfilled result =>
                   batch_loop operation rest (batch_push results filename result)
               | Thrown message =>
                   Return (mkBatch false (JS.lit "Failed to process batch") None
                                   (Some (catch_message message)))
               end)
      | None =>
          batch_loop operation rest
            (batch_push results filename
               (mkCommandResult false [] (Some (JS.lit "Unknown operation"))))
      end
  end.

Definition batchProcessTool (filenames : list (list N)) (operation : list N)
    : task batch_envelope :=
  batch_loop operation filenames [].

(** *** join-files *)

Definition listFile : list N := JS.lit "filelist.txt".

(** [`file '${filename}'`] *)
Definition list_entry (filename : list N) : list N :=
  JS.lit "file '" ++ filename ++ JS.lit "'".

(** [filenames.map(...).join('\n')] *)
Definition fileList (filenames : list (list N)) : list N :=
  JS.join 10 (list_entry <$> filenames).

(** [output || `joined_${filenames[0]}`]: a missing first element renders
    as [undefined]. *)
Definition join_output (filenames : list (list N)) (output : option (list N)) : list N :=
  match output with
  | Some (c :: o) => c :: o
  | _ => JS.lit "joined_"
         ++ match filenames with
            | f :: _ => f
            | [] => JS.lit "undefined"
            end
  end.

Definition joinFilesTool (filenames : list (list N)) (output : option (list N))
    : task envelope :=
  let outputFilename := join_output filenames output in
  AwaitWriteFile listFile (fileList filenames)
    (fun written =>
       match written with
       | Fulfilled _ =>
           let args := [JS.lit "-f"; JS.lit "concat"; JS.lit "-safe"; JS.lit "0";
                        JS.lit "-i"; listFile; JS.lit "-c"; JS.lit "copy";
                        outputFilename] in
           AwaitRunner (ffmpeg args)
             (report (JS.lit "Files joined successfully") (JS.lit "Failed to join files")
                     (JS.lit "Failed to join files") outputFilename)
       | Thrown message => Return (caught (JS.lit "Failed to join files") message)
       end).

(** *** Vocabulary of the statements *)

(** A tool names an output file exactly when it reports success, and the
    name is the last argument of the last process it started, which ended
    with success. *)
Definition names_output_of_last_run (w : world) (t : task envelope) : Prop :=
  (is_Some (env_outputFile (eval w t)) <-> env_success (eval w t) = true)
  /\ forall f, env_outputFile (eval w t) = Some f ->
       exists l r, last (launches w t) = Some l
         /\ last (args l) = Some f
         /\ run w l = Fulfilled r /\ success r = true.

(** A process that does not go through a shell: [ffmpeg] or [ffprobe] with
    the arguments as given, under the 600-second timer. *)
Definition launch_ok (l : launch) : Prop :=
  shell l = false
  /\ (file l = JS.lit "ffmpeg" \/ file l = JS.lit "ffprobe")
  /\ timer l = 600000%Z.

Definition shell_free {A : Type} (w : world) (t : task A) : Prop :=
  Forall launch_ok (launches w t).


End Tools.

(** ** Vocabulary of further statements about [FFmpegUtils] *)

Module FFmpegUtilsFacts.

Import FFmpegUtils.

Definition is_timer (e : spawn_event) : bool :=
  match e with Timer => true | _ => false end.

Definition is_exec_timer (e : exec_event) : bool :=
  match e with ExecTimer => true | _ => false end.

(** Every start of the run got its process from [exec]. *)
Definition all_spawned (calls : list capture_call) : bool :=
  forallb (fun c => match c with
                    | Start command _ platform =>
                        spawn_accepts (capture_launch command) && platform
                    | Stop => true
                    end) calls.

(** A result says [success] exactly when it carries no [error]. *)
Definition coherent (r : CommandResult) : Prop :=
  success r = true <-> error r = None.

(** Lines the parser loop acts on: markers and lines with a separator. *)
Definition relevant (line : list N) : bool :=
  JS.startsWith (JS.lit "[FORMAT]") line
  || JS.startsWith (JS.lit "[STREAM]") line
  || JS.includes 61 line.

(** Every key and value is trimmed, and no key is [__proto__]. *)
Definition trimmed_map (m : gmap (list N) (list N)) : Prop :=
  forall k v, m !! k = Some v ->
    JS.trim k = k /\ JS.trim v = v /\ k <> JS.lit "__proto__".

Definition trimmed_state (st : parser) : Prop :=
  trimmed_map (format (result st))
  /\ Forall trimmed_map (streams (result st))
  /\ trimmed_map (currentStream st).

(** The map a key=value line writes to, and the other one. *)
Definition active_map (st : parser) : gmap (list N) (list N) :=
  if inStream st then currentStream st else format (result st).

Definition inactive_map (st : parser) : gmap (list N) (list N) :=
  if inStream st then format (result st) else currentStream st.

(** The number of lines that begin with the stream marker. *)
Definition stream_markers (lines : list (list N)) : nat :=
  length (filter (fun l => JS.startsWith (JS.lit "[STREAM]") l = true) lines).

(** After [n] stream markers: nothing is emitted or in progress before the
    first one, and fewer than [n] records are emitted afterwards. *)
Definition within_markers (st : parser) (n : nat) : Prop :=
  match n with
  | O => streams (result st) = [] /\ currentStream st = ∅ /\ inStream st = false
  | S m => (length (streams (result st)) <= m)%nat
  end.

End FFmpegUtilsFacts.

(** * Properties *)

Import FFmpegUtils ExecuteFFmpegCommandTool.

(** ** Filename sanitizer *)

Section Sanitizer.

Ltac b2p :=
  unfold output_char, allowed_char, is_underscore, underscore, JS.between in *;
  repeat first
    [ rewrite andb_true_iff in * | rewrite orb_true_iff in *
    | rewrite andb_false_iff in * | rewrite orb_false_iff in *
    | rewrite N.leb_le in * | rewrite N.eqb_eq in *
    | rewrite N.leb_gt in * | rewrite N.eqb_neq in * ].

Lemma normalise_unit c :
  output_char (lower_unit (if allowed_char c then c else underscore)) = true.
Proof.
  destruct (allowed_char c) eqn:Ha; unfold lower_unit.
  - destruct (JS.between 65 90 c) eqn:Hu; b2p; lia.
  - reflexivity.
Qed.

Lemma output_char_fixed c :
  output_char c = true ->
  lower_unit (if allowed_char c then c else underscore) = c.
Proof.
  intros H. destruct (allowed_char c) eqn:Ha; unfold lower_unit.
  - destruct (JS.between 65 90 c) eqn:Hu; [b2p; lia | reflexivity].
  - change (JS.between 65 90 underscore) with false. cbv iota. b2p. lia.
Qed.

Lemma forallb_lower_replace s :
  forallb output_char (toLowerCase (replace_disallowed s)) = true.
Proof.
  induction s as [|c s IH]; [reflexivity|].
  cbn [toLowerCase replace_disallowed fmap list_fmap forallb] in *.
  rewrite normalise_unit. exact IH.
Qed.

Lemma lower_replace_fixed s :
  forallb output_char s = true -> toLowerCase (replace_disallowed s) = s.
Proof.
  induction s as [|c s IH]; [reflexivity|].
  cbn [toLowerCase replace_disallowed fmap list_fmap forallb] in *.
  intros [Hc Hs]%andb_prop. rewrite (output_char_fixed _ Hc). f_equal. auto.
Qed.

Lemma leading_collapse s :
  leading_underscore (collapse_underscores s) = leading_underscore s.
Proof.
  induction s as [|c s IH]; [reflexivity|].
  cbn [collapse_underscores leading_underscore].
  destruct (is_underscore c) eqn:Hc.
  - destruct s as [|d s]; [cbn; exact Hc|].
    destruct (is_underscore d) eqn:Hd.
    + rewrite IH. cbn. exact Hd.
    + cbn. exact Hc.
  - cbn. exact Hc.
Qed.

Lemma collapse_single s : double_underscore (collapse_underscores s) = false.
Proof.
  induction s as [|c s IH]; [reflexivity|].
  cbn [collapse_underscores].
  destruct (is_underscore c) eqn:Hc.
  - destruct s as [|d s]; [cbn; rewrite Hc; reflexivity|].
    destruct (is_underscore d) eqn:Hd; [exact IH|].
    cbn [double_underscore]. rewrite IH, leading_collapse. cbn. rewrite Hd, Hc.
    reflexivity.
  - cbn [double_underscore]. rewrite IH, Hc. reflexivity.
Qed.

Lemma collapse_forallb (P : N -> bool) s :
  forallb P s = true -> forallb P (collapse_underscores s) = true.
Proof.
  induction s as [|c s IH]; [reflexivity|].
  cbn [collapse_underscores forallb]. intros [Hc Hs]%andb_prop.
  destruct (is_underscore c).
  - destruct s as [|d s]; [cbn; rewrite Hc; reflexivity|].
    destruct (is_underscore d); [auto|].
    cbn [forallb]. rewrite Hc. cbn. auto.
  - cbn [forallb]. rewrite Hc. cbn. auto.
Qed.

Lemma collapse_fixed s :
  double_underscore s = false -> collapse_underscores s = s.
Proof.
  induction s as [|c s IH]; [reflexivity|].
  cbn [collapse_underscores double_underscore].
  intros [Hh Ht]%orb_false_elim.
  destruct (is_underscore c).
  - destruct s as [|d s]; [reflexivity|].
    cbn in Hh. rewrite Hh. f_equal. auto.
  - f_equal. auto.
Qed.

Lemma strip_leading_forallb (P : N -> bool) s :
  forallb P s = true -> forallb P (strip_leading s) = true.
Proof.
  destruct s as [|c s]; [reflexivity|]. cbn [strip_leading].
  destruct (is_underscore c); [|auto].
  cbn. intros [_ Hs]%andb_prop. exact Hs.
Qed.

Lemma strip_leading_single s :
  double_underscore s = false ->
  double_underscore (strip_leading s) = false
  /\ leading_underscore (strip_leading s) = false.
Proof.
  destruct s as [|c s]; [auto|]. cbn [strip_leading double_underscore].
  intros [Hh Ht]%orb_false_elim.
  destruct (is_underscore c) eqn:Hc.
  - split; [exact Ht|]. exact Hh.
  - split; [|cbn; exact Hc]. cbn [double_underscore]. rewrite Hc, Ht. reflexivity.
Qed.

Lemma strip_trailing_forallb (P : N -> bool) s :
  forallb P s = true -> forallb P (strip_trailing s) = true.
Proof.
  induction s as [|c s IH]; [reflexivity|].
  cbn [forallb]. intros [Hc Hs]%andb_prop.
  destruct s as [|d s].
  - cbn. destruct (is_underscore c); [reflexivity|]. cbn. rewrite Hc. reflexivity.
  - change (strip_trailing (c :: d :: s)) with (c :: strip_trailing (d :: s)).
    cbn [forallb]. rewrite Hc. cbn. auto.
Qed.

Lemma strip_trailing_cons c d s :
  strip_trailing (c :: d :: s) = c :: strip_trailing (d :: s).
Proof. reflexivity. Qed.

Lemma leading_strip_trailing s :
  leading_underscore s = false -> leading_underscore (strip_trailing s) = false.
Proof.
  destruct s as [|c [|d s]]; [auto| |auto].
  cbn. intros H. rewrite H. exact H.
Qed.

Lemma strip_trailing_single s :
  double_underscore s = false ->
  double_underscore (strip_trailing s) = false
  /\ trailing_underscore (strip_trailing s) = false.
Proof.
  induction s as [|c s IH]; [auto|].
  destruct s as [|d s].
  - cbn. destruct (is_underscore c) eqn:Hc; cbn; rewrite ?Hc; auto.
  - rewrite strip_trailing_cons. cbn [double_underscore].
    intros [Hh Ht]%orb_false_elim. destruct (IH Ht) as [IH1 IH2].
    split.
    + rewrite IH1, orb_false_r.
      destruct (is_underscore c) eqn:Hc; [|reflexivity].
      cbn [andb] in *. apply leading_strip_trailing. exact Hh.
    + destruct (strip_trailing (d :: s)) as [|e t] eqn:He.
      * cbn. destruct (is_underscore c) eqn:Hc; [|reflexivity].
        cbn [andb] in Hh. destruct s as [|e s]; [|discriminate He].
        cbn in He, Hh. rewrite Hh in He. discriminate He.
      * exact IH2.
Qed.

Lemma strip_leading_fixed s : leading_underscore s = false -> strip_leading s = s.
Proof. destruct s as [|c s]; [reflexivity|]. cbn. intros ->. reflexivity. Qed.

Lemma strip_trailing_fixed s : trailing_underscore s = false -> strip_trailing s = s.
Proof.
  induction s as [|c s IH]; [reflexivity|].
  destruct s as [|d s].
  - cbn. intros ->. reflexivity.
  - rewrite strip_trailing_cons. intros H. f_equal. apply IH. exact H.
Qed.

Lemma sanitized_clean s : clean (sanitized s) = true.
Proof.
  unfold clean, sanitized, strip_edges.
  set (t := collapse_underscores (toLowerCase (replace_disallowed s))).
  assert (Hf : forallb output_char t = true)
    by apply collapse_forallb, forallb_lower_replace.
  assert (Hd : double_underscore t = false) by apply collapse_single.
  destruct (strip_leading_single t Hd) as [Hd1 Hl1].
  destruct (strip_trailing_single _ Hd1) as [Hd2 Ht2].
  rewrite strip_trailing_forallb by (apply strip_leading_forallb; exact Hf).
  rewrite Hd2, Ht2, leading_strip_trailing by exact Hl1. reflexivity.
Qed.

Lemma clean_fixed s : clean s = true -> sanitized s = s.
Proof.
  unfold clean. intros H.
  apply andb_prop in H as [H Ht]. apply andb_prop in H as [H Hl].
  apply andb_prop in H as [Hf Hd].
  apply negb_true_iff in Ht, Hl, Hd.
  unfold sanitized, strip_edges.
  rewrite lower_replace_fixed, collapse_fixed, strip_leading_fixed, strip_trailing_fixed;
    auto.
Qed.

Lemma collapse_run c d s :
  is_underscore c = true -> is_underscore d = true ->
  collapse_underscores (c :: d :: s) = collapse_underscores (d :: s).
Proof.
  intros Hc Hd. change (collapse_underscores (c :: d :: s))
    with (if is_underscore c
          then if is_underscore d then collapse_underscores (d :: s)
               else c :: collapse_underscores (d :: s)
          else c :: collapse_underscores (d :: s)).
  rewrite Hc, Hd. reflexivity.
Qed.

Lemma collapse_all_underscores s :
  forallb is_underscore s = true ->
  strip_edges (collapse_underscores s) = [].
Proof.
  induction s as [|c s IH]; [reflexivity|].
  intros H. cbn [forallb] in H. apply andb_prop in H as [Hc Hs].
  destruct s as [|d s].
  - unfold strip_edges. cbn. rewrite Hc. cbn. rewrite Hc. reflexivity.
  - pose proof Hs as Hs'. cbn [forallb] in Hs'. apply andb_prop in Hs' as [Hd _].
    rewrite (collapse_run c d s Hc Hd). exact (IH Hs).
Qed.

Lemma sanitized_all_disallowed s :
  forallb (fun c => negb (allowed_char c)) s = true -> sanitized s = [].
Proof.
  intros H. unfold sanitized. apply collapse_all_underscores.
  induction s as [|c s IH]; [reflexivity|].
  cbn [forallb] in H. apply andb_prop in H as [Hc Hs].
  apply negb_true_iff in Hc.
  cbn [toLowerCase replace_disallowed fmap list_fmap forallb].
  rewrite Hc. change (is_underscore (lower_unit underscore)) with true.
  exact (IH Hs).
Qed.

Lemma sanitizeFilename_cases x :
  sanitizeFilename x = if decide (sanitized x = []) then fallback_name else sanitized x.
Proof.
  unfold sanitizeFilename. destruct (sanitized x); [reflexivity|].
  destruct (decide _) as [E|_]; [discriminate E | reflexivity].
Qed.

Lemma sanitizeFilename_clean x : clean (sanitizeFilename x) = true.
Proof.
  rewrite sanitizeFilename_cases. destruct (decide _); [reflexivity|].
  apply sanitized_clean.
Qed.

Lemma sanitizeFilename_nonempty x : sanitizeFilename x <> [].
Proof.
  rewrite sanitizeFilename_cases. destruct (decide _); [discriminate | assumption].
Qed.

(** C6, as amended: for every input the sanitizer returns a non-empty name
    made of lower-case letters, digits, dots, hyphens and the separator
    underscore only, with no two separators next to each other and none at
    either end; when the four rewriting steps leave nothing, the result is
    the fixed name [uploaded_file]. *)
Theorem sanitizeFilename_shape (x : list N) :
  forallb output_char (sanitizeFilename x) = true
  /\ double_underscore (sanitizeFilename x) = false
  /\ leading_underscore (sanitizeFilename x) = false
  /\ trailing_underscore (sanitizeFilename x) = false
  /\ sanitizeFilename x <> []
  /\ sanitizeFilename x
     = if decide (sanitized x = []) then fallback_name else sanitized x.
Proof.
  pose proof (sanitizeFilename_clean x) as H. unfold clean in H.
  apply andb_prop in H as [H Ht]. apply andb_prop in H as [H Hl].
  apply andb_prop in H as [Hf Hd]. apply negb_true_iff in Ht, Hl, Hd.
  repeat split; auto using sanitizeFilename_nonempty, sanitizeFilename_cases.
Qed.

(** C6 as stated fails: the separator that replaces a disallowed character
    stays in the result, and it is neither a letter, a digit, a dot nor a
    hyphen. *)
Lemma sanitizeFilename_separator_survives :
  sanitizeFilename (JS.lit "a b") = JS.lit "a_b"
  /\ ~ Forall (fun c => allowed_char c = true) (sanitizeFilename (JS.lit "a b")).
Proof.
  split; [vm_compute; reflexivity|].
  intros H. apply Forall_lookup_1 with (i := 1%nat) (x := underscore) in H;
    [discriminate H | reflexivity].
Qed.

(** C7: sanitizing twice gives what sanitizing once gives, and an input
    made of disallowed characters only is sanitized to [uploaded_file]. *)
Theorem sanitizeFilename_idempotent_and_fallback :
  (forall x, sanitizeFilename (sanitizeFilename x) = sanitizeFilename x)
  /\ (forall x, forallb (fun c => negb (allowed_char c)) x = true ->
                sanitizeFilename x = fallback_name).
Proof.
  split.
  - intros x. pose proof (sanitizeFilename_clean x) as Hc.
    apply clean_fixed in Hc. unfold sanitizeFilename at 1. rewrite Hc.
    pose proof (sanitizeFilename_nonempty x).
    destruct (sanitizeFilename x); [contradiction | reflexivity].
  - intros x Hx. unfold sanitizeFilename.
    rewrite (sanitized_all_disallowed x Hx). reflexivity.
Qed.

(** C7 at a mixed-case name with a doubled blank, and at a name of
    disallowed characters only. *)
Lemma sanitizeFilename_idempotent_and_fallback_witness :
  sanitizeFilename (sanitizeFilename (JS.lit "My  Clip.MP4"))
  = sanitizeFilename (JS.lit "My  Clip.MP4")
  /\ sanitizeFilename (JS.lit "#@ !") = fallback_name.
Proof.
  split.
  - apply (proj1 sanitizeFilename_idempotent_and_fallback).
  - apply (proj2 sanitizeFilename_idempotent_and_fallback). reflexivity.
Defined.

End Sanitizer.

(** ** Probe output parser *)

Section ProbeParser.

Lemma split_head sep s :
  exists ps, JS.split sep s = JS.before sep s :: ps.
Proof.
  induction s as [|c s [ps IH]]; cbn; [eauto|].
  destruct (c =? sep); [eauto|]. rewrite IH. eauto.
Qed.

Lemma split_limit_two sep s :
  JS.includes sep s = true ->
  JS.split_limit sep 2 s = [JS.before sep s; JS.before sep (JS.after sep s)].
Proof.
  unfold JS.includes, JS.split_limit. induction s as [|c s IH]; [discriminate|].
  cbn [existsb JS.split JS.before JS.after]. rewrite (N.eqb_sym sep c).
  destruct (c =? sep).
  - intros _. destruct (split_head sep s) as [ps ->]. reflexivity.
  - cbn [orb]. intros H. specialize (IH H).
    destruct (JS.split sep s) as [|p [|q ps]]; cbn in IH |- *; try discriminate IH.
    injection IH as -> ->. reflexivity.
Qed.

Lemma parse_line_key_value st line :
  JS.startsWith (JS.lit "[FORMAT]") line = false ->
  JS.startsWith (JS.lit "[STREAM]") line = false ->
  JS.includes 61 line = true ->
  let key := JS.trim (JS.before 61 line) in
  let value := JS.trim (JS.before 61 (JS.after 61 line)) in
  parse_line st line
  = Some (if inStream st
          then mkParser (result st) (set_property key value (currentStream st)) true
          else mkParser (mkProbe (set_property key value (format (result st)))
                                 (streams (result st)))
                        (currentStream st) false).
Proof.
  intros Hf Hs Hi. unfold parse_line. rewrite Hf, Hs, Hi, (split_limit_two _ _ Hi).
  destruct (inStream st); reflexivity.
Qed.

Lemma split_nonempty sep s : JS.split sep s <> [].
Proof.
  destruct s as [|c s]; cbn; [discriminate|].
  destruct (c =? sep); [discriminate|].
  destruct (JS.split sep s); discriminate.
Qed.

Lemma split_includes sep s :
  JS.includes sep s = true ->
  exists k v rest, JS.split sep s = k :: v :: rest.
Proof.
  unfold JS.includes. induction s as [|c s IH]; [discriminate|].
  cbn [existsb JS.split]. rewrite (N.eqb_sym sep c).
  destruct (c =? sep).
  - intros _. destruct (JS.split sep s) as [|p ps] eqn:E.
    + destruct (split_nonempty _ _ E).
    + eauto.
  - cbn [orb]. intros H. destruct (IH H) as (k & v & rest & ->). eauto.
Qed.

Lemma parse_line_total st line : is_Some (parse_line st line).
Proof.
  unfold parse_line.
  destruct (JS.startsWith (JS.lit "[FORMAT]") line); [eauto|].
  destruct (JS.startsWith (JS.lit "[STREAM]") line); [eauto|].
  destruct (JS.includes 61 line) eqn:Hi; [|eauto].
  destruct (split_includes _ _ Hi) as (k & v & rest & E).
  unfold JS.split_limit. rewrite E. cbn [take].
  destruct (inStream st); eauto.
Qed.

Lemma parse_lines_total lines : forall st, is_Some (parse_lines st lines).
Proof.
  induction lines as [|l lines IH]; intros st; cbn; [eauto|].
  destruct (parse_line_total st l) as [st' ->]. apply IH.
Qed.

Lemma parse_lines_app l1 l2 st :
  parse_lines st (l1 ++ l2)
  = match parse_lines st l1 with
    | Some st1 => parse_lines st1 l2
    | None => None
    end.
Proof.
  revert st. induction l1 as [|l l1 IH]; intros st; cbn; [reflexivity|].
  destruct (parse_line st l); [apply IH | reflexivity].
Qed.

Lemma stream_marker_not_format line :
  JS.startsWith (JS.lit "[STREAM]") line = true ->
  JS.startsWith (JS.lit "[FORMAT]") line = false.
Proof.
  destruct line as [|a [|b line]]; [discriminate | |].
  - change (JS.lit "[STREAM]") with (91 :: JS.lit "STREAM]").
    cbn [JS.startsWith]. rewrite andb_comm. discriminate.
  - change (JS.lit "[STREAM]") with (91 :: 83 :: JS.lit "TREAM]").
    change (JS.lit "[FORMAT]") with (91 :: 70 :: JS.lit "ORMAT]").
    cbn [JS.startsWith].
    destruct (N.eqb_spec 83 b) as [<-|]; [|rewrite andb_comm; discriminate].
    intros _. apply andb_false_r.
Qed.

Lemma parse_line_stream_marker st line :
  JS.startsWith (JS.lit "[STREAM]") line = true ->
  parse_line st line
  = Some (mkParser (push_current (currentStream st) (result st)) ∅ true).
Proof.
  intros H. unfold parse_line. rewrite (stream_marker_not_format _ H), H.
  reflexivity.
Qed.

Lemma streams_push_current cur r :
  streams (push_current cur r) = streams r ++ emitted cur.
Proof.
  unfold push_current, emitted. destruct (0 <? size cur)%nat; cbn;
    [reflexivity | rewrite app_nil_r; reflexivity].
Qed.

(** A line that is not a stream marker leaves [streams] alone, and what it
    does to [currentStream] and [inStream] does not depend on [result]. *)
Lemma parse_line_body line f ss cur b f0 ss0 :
  JS.startsWith (JS.lit "[STREAM]") line = false ->
  exists f' f0' cur' b',
    parse_line (mkParser (mkProbe f ss) cur b) line
    = Some (mkParser (mkProbe f' ss) cur' b')
    /\ parse_line (mkParser (mkProbe f0 ss0) cur b) line
       = Some (mkParser (mkProbe f0' ss0) cur' b')
    /\ (b = false -> cur' = cur /\ b' = false).
Proof.
  intros Hs. unfold parse_line. rewrite Hs.
  destruct (JS.startsWith (JS.lit "[FORMAT]") line); [cbn; eauto 10|].
  destruct (JS.includes 61 line) eqn:Hi; [|eauto 10].
  destruct (split_includes _ _ Hi) as (k & v & rest & E).
  unfold JS.split_limit. rewrite E. cbn [take inStream].
  destruct b; cbn; [|eauto 10].
  do 4 eexists. split; [reflexivity|]. split; [reflexivity|]. discriminate.
Qed.

Lemma parse_lines_body body :
  forallb (fun l => negb (JS.startsWith (JS.lit "[STREAM]") l)) body = true ->
  forall f ss cur b f0 ss0,
  exists f' f0' cur' b',
    parse_lines (mkParser (mkProbe f ss) cur b) body
    = Some (mkParser (mkProbe f' ss) cur' b')
    /\ parse_lines (mkParser (mkProbe f0 ss0) cur b) body
       = Some (mkParser (mkProbe f0' ss0) cur' b')
    /\ (b = false -> cur' = cur /\ b' = false).
Proof.
  induction body as [|l body IH]; intros H f ss cur b f0 ss0.
  - cbn. eauto 10.
  - cbn [forallb] in H. apply andb_prop in H as [Hl Hb].
    apply negb_true_iff in Hl.
    destruct (parse_line_body l f ss cur b f0 ss0 Hl)
      as (f1 & f01 & cur1 & b1 & E1 & E2 & K1).
    destruct (IH Hb f1 ss cur1 b1 f01 ss0)
      as (f2 & f02 & cur2 & b2 & E3 & E4 & K2).
    exists f2, f02, cur2, b2. cbn [parse_lines]. rewrite E1, E2.
    split; [exact E3|]. split; [exact E4|].
    intros ->. destruct (K1 eq_refl) as [-> ->]. exact (K2 eq_refl).
Qed.

Lemma parse_lines_section body f ss :
  forallb (fun l => negb (JS.startsWith (JS.lit "[STREAM]") l)) body = true ->
  exists f' b',
    parse_lines (mkParser (mkProbe f ss) ∅ true) body
    = Some (mkParser (mkProbe f' ss) (section_record body) b').
Proof.
  intros H.
  destruct (parse_lines_body body H f ss ∅ true ∅ [])
    as (f' & f0' & cur' & b' & E1 & E2 & _).
  exists f', b'. unfold section_record. rewrite E2. exact E1.
Qed.

Lemma emitted_filter (m : gmap (list N) (list N)) :
  emitted m = filter (fun m : gmap (list N) (list N) => m <> ∅) [m].
Proof.
  unfold emitted. destruct (decide (m = ∅)) as [->|Hm].
  - reflexivity.
  - rewrite filter_cons_True by exact Hm. rewrite filter_nil.
    destruct (size m) eqn:E; [|reflexivity].
    apply map_size_empty_iff in E. contradiction.
Qed.

Lemma parse_sections sections :
  forallb (fun s => JS.startsWith (JS.lit "[STREAM]") (fst s)
                    && forallb (fun l => negb (JS.startsWith (JS.lit "[STREAM]") l)) (snd s))
          sections = true ->
  forall f ss cur b,
  exists st,
    parse_lines (mkParser (mkProbe f ss) cur b) (section_lines sections) = Some st
    /\ streams (parse_finish st)
       = ss ++ emitted cur
            ++ filter (fun m : gmap (list N) (list N) => m <> ∅)
                      ((fun s => section_record (snd s)) <$> sections).
Proof.
  induction sections as [|[mk body] sections IH]; intros H f ss cur b.
  - eexists. split; [reflexivity|].
    unfold parse_finish. rewrite streams_push_current, app_nil_r. reflexivity.
  - cbn [forallb fst snd] in H. apply andb_prop in H as [H Hrest].
    apply andb_prop in H as [Hmk Hbody].
    unfold section_lines. cbn [fmap list_fmap concat fst snd].
    fold (section_lines sections).
    change ((mk :: body) ++ section_lines sections)
      with (mk :: (body ++ section_lines sections)).
    cbn [parse_lines]. rewrite (parse_line_stream_marker _ _ Hmk).
    rewrite parse_lines_app. cbn [currentStream result].
    destruct (push_current cur (mkProbe f ss)) as [f1 ss1] eqn:Ep.
    assert (Hss1 : ss1 = ss ++ emitted cur).
    { change ss1 with (streams (mkProbe f1 ss1)). rewrite <- Ep.
      apply streams_push_current. }
    destruct (parse_lines_section body f1 ss1 Hbody) as (f2 & b2 & ->).
    destruct (IH Hrest f2 ss1 (section_record body) b2) as (st & -> & Hst).
    exists st. split; [reflexivity|]. rewrite Hst, Hss1.
    rewrite <- app_assoc. f_equal. f_equal.
    rewrite (emitted_filter (section_record body)).
    destruct (decide (section_record body <> ∅)).
    + rewrite !filter_cons_True by assumption. reflexivity.
    + rewrite !filter_cons_False by assumption. reflexivity.
Qed.

Lemma split_join sep lines :
  forallb (fun l => negb (JS.includes sep l)) lines = true ->
  JS.split sep (JS.join sep lines) = match lines with [] => [[]] | _ => lines end.
Proof.
  assert (Hone : forall l rest, JS.includes sep l = false ->
            JS.split sep (l ++ sep :: rest) = l :: JS.split sep rest).
  { induction l as [|c l IHl]; intros rest Hl.
    - cbn. rewrite N.eqb_refl. reflexivity.
    - unfold JS.includes in Hl. cbn [existsb] in Hl.
      apply orb_false_elim in Hl as [Hc Hl].
      cbn [app JS.split]. rewrite (N.eqb_sym c sep), Hc.
      rewrite (IHl rest Hl). reflexivity. }
  assert (Hlast : forall l, JS.includes sep l = false -> JS.split sep l = [l]).
  { induction l as [|c l IHl]; intros Hl; [reflexivity|].
    unfold JS.includes in Hl. cbn [existsb] in Hl.
    apply orb_false_elim in Hl as [Hc Hl].
    cbn [JS.split]. rewrite (N.eqb_sym c sep), Hc, (IHl Hl). reflexivity. }
  induction lines as [|l lines IH]; intros H; [reflexivity|].
  cbn [forallb] in H. apply andb_prop in H as [Hl Hs].
  apply negb_true_iff in Hl.
  destruct lines as [|l2 lines]; [exact (Hlast l Hl)|].
  change (JS.join sep (l :: l2 :: lines)) with (l ++ sep :: JS.join sep (l2 :: lines)).
  rewrite (Hone _ _ Hl), (IH Hs). reflexivity.
Qed.

Lemma parse_finish_eta st :
  parse_finish st = mkProbe (format (parse_finish st)) (streams (parse_finish st)).
Proof. destruct (parse_finish st). reflexivity. Qed.

(** C9: the documented scenario parses to the format map
    [{duration: "12.3"}] and the two stream records in input order; and in
    general, for a text made of lines without stream marker followed by
    stream sections, the returned sequence is the non-empty records of the
    sections in the order of the sections, the last one included although
    no marker follows it. *)
Theorem parse_streams_in_input_order :
  parseFFprobeOutput scenario
  = Parsed (mkProbe {[ JS.lit "duration" := JS.lit "12.3" ]}
                    [ {[ JS.lit "codec_name" := JS.lit "h264" ]};
                      {[ JS.lit "codec_name" := JS.lit "aac" ]} ])
  /\ forall (pre : list (list N)) (sections : list (list N * list (list N))),
       forallb (fun l => negb (JS.startsWith (JS.lit "[STREAM]") l)) pre = true ->
       forallb (fun s => JS.startsWith (JS.lit "[STREAM]") (fst s)
                         && forallb (fun l => negb (JS.startsWith (JS.lit "[STREAM]") l)) (snd s))
               sections = true ->
       forallb (fun l => negb (JS.includes 10 l)) (pre ++ section_lines sections) = true ->
       exists fmt,
         parseFFprobeOutput (JS.join 10 (pre ++ section_lines sections))
         = Parsed (mkProbe fmt
                     (filter (fun m : gmap (list N) (list N) => m <> ∅)
                             ((fun s => section_record (snd s)) <$> sections))).
Proof.
  split; [vm_compute; reflexivity|].
  intros pre sections Hpre Hsec Hnl. unfold parseFFprobeOutput.
  rewrite (split_join _ _ Hnl). clear Hnl.
  destruct (pre ++ section_lines sections) as [|l ls] eqn:E.
  - apply app_eq_nil in E as [-> E].
    destruct sections as [|[mk body] sections]; [|discriminate E].
    exists ∅. reflexivity.
  - rewrite <- E. clear E l ls. rewrite parse_lines_app.
    destruct (parse_lines_body pre Hpre ∅ [] ∅ false ∅ [])
      as (f1 & _ & cur1 & b1 & E1 & _ & K).
    destruct (K eq_refl) as [-> ->]. unfold parser_init. rewrite E1.
    destruct (parse_sections sections Hsec f1 [] ∅ false) as (st & -> & Hst).
    exists (format (parse_finish st)).
    rewrite (parse_finish_eta st) at 1. rewrite Hst. reflexivity.
Qed.

(** C9, general part, at the scenario read as two lines and two sections. *)
Lemma parse_streams_in_input_order_witness :
  exists fmt,
    parseFFprobeOutput scenario
    = Parsed (mkProbe fmt [ {[ JS.lit "codec_name" := JS.lit "h264" ]};
                            {[ JS.lit "codec_name" := JS.lit "aac" ]} ]).
Proof.
  exact (proj2 parse_streams_in_input_order
           [JS.lit "[FORMAT]"; JS.lit "duration=12.3"]
           [(JS.lit "[STREAM]", [JS.lit "codec_name=h264"]);
            (JS.lit "[STREAM]", [JS.lit "codec_name=aac"; []])]
           eq_refl eq_refl eq_refl).
Defined.

Lemma push_current_nonempty cur r :
  Forall (fun m : gmap (list N) (list N) => m <> ∅) (streams r) ->
  Forall (fun m : gmap (list N) (list N) => m <> ∅) (streams (push_current cur r)).
Proof.
  intros H. unfold push_current. destruct (size cur) eqn:E; [exact H|].
  cbn. apply Forall_app. split; [exact H|]. constructor; [|constructor].
  intros ->. rewrite map_size_empty in E. discriminate E.
Qed.

Lemma parse_line_nonempty st line st' :
  parse_line st line = Some st' ->
  Forall (fun m : gmap (list N) (list N) => m <> ∅) (streams (result st)) ->
  Forall (fun m : gmap (list N) (list N) => m <> ∅) (streams (result st')).
Proof.
  unfold parse_line. intros H Hst.
  destruct (JS.startsWith (JS.lit "[FORMAT]") line); [injection H as <-; exact Hst|].
  destruct (JS.startsWith (JS.lit "[STREAM]") line).
  { injection H as <-. apply push_current_nonempty. exact Hst. }
  destruct (JS.includes 61 line); [|injection H as <-; exact Hst].
  destruct (JS.split_limit 61 2 line) as [|k [|v rest]]; try discriminate H.
  destruct (inStream st); injection H as <-; exact Hst.
Qed.

Lemma parse_lines_nonempty lines : forall st st',
  parse_lines st lines = Some st' ->
  Forall (fun m : gmap (list N) (list N) => m <> ∅) (streams (result st)) ->
  Forall (fun m : gmap (list N) (list N) => m <> ∅) (streams (result st')).
Proof.
  induction lines as [|l lines IH]; intros st st' H Hst; cbn in H.
  - injection H as <-. exact Hst.
  - destruct (parse_line st l) as [st1|] eqn:E; [|discriminate H].
    exact (IH _ _ H (parse_line_nonempty _ _ _ E Hst)).
Qed.

(** C10: a line beginning with [[FORMAT]] followed by any lines without
    stream marker leaves the record in progress and the emitted records as
    they were and switches to the format map; a key=value line then goes to
    the format map, where its key (unless it is [__proto__]) is found with
    its value afterwards while the record in progress stays as it was; the
    record in progress is appended by the next [[STREAM]] marker and by the
    end of input exactly when it is not empty; no parse returns an empty
    stream record. *)
Theorem format_marker_defers_stream :
  (forall (st : parser) (fmt : list N) (body : list (list N)),
     JS.startsWith (JS.lit "[FORMAT]") fmt = true ->
     forallb (fun l => negb (JS.startsWith (JS.lit "[STREAM]") l)) body = true ->
     exists st',
       parse_lines st (fmt :: body) = Some st'
       /\ inStream st' = false
       /\ currentStream st' = currentStream st
       /\ streams (result st') = streams (result st)
       /\ (forall mk, JS.startsWith (JS.lit "[STREAM]") mk = true ->
             exists st'', parse_line st' mk = Some st''
               /\ streams (result st'')
                  = streams (result st)
                    ++ (if decide (currentStream st = ∅) then [] else [currentStream st]))
       /\ streams (parse_finish st')
          = streams (result st)
            ++ (if decide (currentStream st = ∅) then [] else [currentStream st]))
  /\ (forall (r : ProbeResult) (cur : gmap (list N) (list N)) (line : list N),
        JS.startsWith (JS.lit "[FORMAT]") line = false ->
        JS.startsWith (JS.lit "[STREAM]") line = false ->
        JS.includes 61 line = true ->
        parse_line (mkParser r cur false) line
        = Some (mkParser
                  (mkProbe (set_property (JS.trim (JS.before 61 line))
                                         (JS.trim (JS.before 61 (JS.after 61 line)))
                                         (format r))
                           (streams r))
                  cur false))
  /\ (forall output : list N,
        exists r, parseFFprobeOutput output = Parsed r
          /\ Forall (fun m : gmap (list N) (list N) => m <> ∅) (streams r))
  /\ (forall (st : parser) (fmt line : list N),
        JS.startsWith (JS.lit "[FORMAT]") fmt = true ->
        JS.startsWith (JS.lit "[FORMAT]") line = false ->
        JS.startsWith (JS.lit "[STREAM]") line = false ->
        JS.includes 61 line = true ->
        JS.trim (JS.before 61 line) <> JS.lit "__proto__" ->
        exists st',
          parse_lines st [fmt; line] = Some st'
          /\ format (result st') !! JS.trim (JS.before 61 line)
             = Some (JS.trim (JS.before 61 (JS.after 61 line)))
          /\ (forall k, k <> JS.trim (JS.before 61 line) ->
                format (result st') !! k = format (result st) !! k)
          /\ currentStream st' = currentStream st
          /\ streams (result st') = streams (result st)
          /\ inStream st' = false).
Proof.
  assert (Hem : forall cur : gmap (list N) (list N),
            emitted cur = if decide (cur = ∅) then [] else [cur]).
  { intros cur. unfold emitted. destruct (decide (cur = ∅)) as [->|Hc]; [reflexivity|].
    destruct (size cur) eqn:E; [|reflexivity].
    apply map_size_empty_iff in E. contradiction. }
  split; [|split; [|split]].
  - intros [[f ss] cur b] fmt body Hfmt Hbody.
    cbn [parse_lines]. unfold parse_line at 1. rewrite Hfmt.
    cbn [result currentStream].
    destruct (parse_lines_body body Hbody f ss cur false ∅ [])
      as (f1 & _ & cur1 & b1 & E1 & _ & K).
    destruct (K eq_refl) as [-> ->]. rewrite E1.
    eexists. split; [reflexivity|]. cbn [inStream currentStream result streams].
    repeat split.
    + intros mk Hmk. rewrite (parse_line_stream_marker _ _ Hmk).
      eexists. split; [reflexivity|]. cbn [result currentStream].
      rewrite streams_push_current, Hem. reflexivity.
    + unfold parse_finish. cbn [result currentStream].
      rewrite streams_push_current, Hem. reflexivity.
  - intros r cur line Hf Hs Hi.
    exact (parse_line_key_value (mkParser r cur false) line Hf Hs Hi).
  - intros output. unfold parseFFprobeOutput.
    destruct (parse_lines_total (JS.split 10 output) parser_init) as [st E].
    rewrite E. eexists. split; [reflexivity|].
    apply push_current_nonempty.
    apply (parse_lines_nonempty _ _ _ E). constructor.
  - intros st fmt line Hfmt Hf Hs Hi Hk.
    cbn [parse_lines]. unfold parse_line at 1. rewrite Hfmt.
    rewrite (parse_line_key_value _ line Hf Hs Hi). cbn [inStream result currentStream].
    eexists. split; [reflexivity|]. cbn [result format streams currentStream inStream].
    unfold set_property. destruct (decide _) as [E|_]; [contradiction|].
    split; [apply lookup_insert_eq|]. split; [|auto].
    intros k Hne. apply lookup_insert_ne. congruence.
Qed.

(** C10 at a record in progress that a format marker and a format line
    follow: the record is kept and is flushed at the end of input. *)
Lemma format_marker_defers_stream_witness :
  let st := mkParser (mkProbe ∅ []) {[ JS.lit "codec_name" := JS.lit "h264" ]} true in
  exists st',
    parse_lines st [JS.lit "[FORMAT]"; JS.lit "duration=12.3"] = Some st'
    /\ inStream st' = false
    /\ currentStream st' = {[ JS.lit "codec_name" := JS.lit "h264" ]}
    /\ streams (result st') = []
    /\ streams (parse_finish st') = [ {[ JS.lit "codec_name" := JS.lit "h264" ]} ]
    /\ format (result st') !! JS.lit "duration" = Some (JS.lit "12.3").
Proof.
  intros st.
  destruct (proj1 format_marker_defers_stream st (JS.lit "[FORMAT]")
              [JS.lit "duration=12.3"] eq_refl eq_refl)
    as (st' & H1 & H2 & H3 & H4 & _ & H6).
  destruct (proj2 (proj2 (proj2 format_marker_defers_stream)) st (JS.lit "[FORMAT]")
              (JS.lit "duration=12.3") eq_refl eq_refl eq_refl eq_refl)
    as (st'' & G1 & G2 & _).
  { vm_compute. discriminate. }
  rewrite H1 in G1. injection G1 as <-.
  exists st'. repeat split; assumption.
Defined.

(** C1, where the code departs from it: [split('=', 2)] keeps the first two
    of all the pieces between separators, so the stored value ends at the
    second separator; the line [a=b=c] stores [b], not [b=c], under [a], in
    the format map and in a stream record alike. *)
Theorem parse_line_cuts_value_at_second_separator :
  JS.split_limit 61 2 (JS.lit "a=b=c") = [JS.lit "a"; JS.lit "b"]
  /\ parseFFprobeOutput (JS.lit "a=b=c")
     = Parsed (mkProbe {[ JS.lit "a" := JS.lit "b" ]} [])
  /\ parseFFprobeOutput (JS.join 10 [JS.lit "[STREAM]"; JS.lit "a=b=c"])
     = Parsed (mkProbe ∅ [ {[ JS.lit "a" := JS.lit "b" ]} ]).
Proof. repeat split; vm_compute; reflexivity. Qed.

End ProbeParser.

(** ** Process runners *)

Section Runners.

Lemma resolve_settled v r w : promise r = Some w -> resolve v r = r.
Proof. unfold resolve. intros ->. reflexivity. Qed.

Lemma argv_on_settled r e w :
  promise r = Some w ->
  promise (argv_on r e) = Some w /\ (kills r <= kills (argv_on r e))%nat.
Proof.
  intros H. destruct e as [d|d|code|m|]; cbn.
  - auto.
  - auto.
  - destruct code as [[| |]|]; rewrite (resolve_settled _ _ _ H); auto.
  - rewrite (resolve_settled _ _ _ H); auto.
  - unfold on_timeout. rewrite (resolve_settled _ (kill r) w H). cbn. split; [exact H | lia].
Qed.

Lemma argv_run_settled events : forall r w,
  promise r = Some w ->
  promise (fold_left argv_on events r) = Some w
  /\ (kills r <= kills (fold_left argv_on events r))%nat.
Proof.
  induction events as [|e events IH]; intros r w H; cbn; [auto|].
  destruct (argv_on_settled r e w H) as [H1 H2].
  destruct (IH _ _ H1) as [H3 H4]. split; [exact H3 | lia].
Qed.

Lemma exec_on_settled r e w :
  promise r = Some w ->
  promise (executeCommand_on r e) = Some w
  /\ (kills r <= kills (executeCommand_on r e))%nat.
Proof.
  intros H. destruct e as [[m|] out errout|]; cbn.
  - rewrite (resolve_settled _ _ _ H); auto.
  - rewrite (resolve_settled _ _ _ H); auto.
  - unfold on_timeout. rewrite (resolve_settled _ (kill r) w H). cbn. split; [exact H | lia].
Qed.

Lemma exec_run_settled events : forall r w,
  promise r = Some w ->
  promise (fold_left executeCommand_on events r) = Some w
  /\ (kills r <= kills (fold_left executeCommand_on events r))%nat.
Proof.
  induction events as [|e events IH]; intros r w H; cbn; [auto|].
  destruct (exec_on_settled r e w H) as [H1 H2].
  destruct (IH _ _ H1) as [H3 H4]. split; [exact H3 | lia].
Qed.

(** Output chunks accumulate and leave the promise and the process alone. *)
Lemma argv_run_data events : forall r,
  forallb is_data events = true ->
  fold_left argv_on events r
  = mkRunner (stdout r ++ concat (stdout_of <$> events))
             (stderr r ++ concat (stderr_of <$> events))
             (promise r) (kills r).
Proof.
  induction events as [|e events IH]; intros r H.
  - cbn. rewrite !app_nil_r. destruct r; reflexivity.
  - cbn [forallb] in H. apply andb_prop in H as [He Hs].
    cbn [fold_left]. rewrite (IH _ Hs).
    destruct e; try discriminate He; cbn; rewrite <- ?app_assoc, ?app_nil_r; reflexivity.
Qed.

(** C3: each runner arms a timer of 600 seconds; when the timer fires while
    the promise is pending (nothing but output chunks came before), the
    process is sent a kill and the call resolves to [success = false],
    an empty [output] and [error = "Command timed out"], whatever output had been
    collected and whatever the process reports afterwards. *)
Theorem timeout_resolves_timed_out
    (command : list N) (args : list (list N)) (workingDir : option (list N))
    (before after : list spawn_event) (after' : list exec_event) :
  forallb is_data before = true ->
  (timer (executeCommand_launch command workingDir) = 600 * 1000)%Z
  /\ (timer (executeFFmpegCommand_launch args workingDir) = 600 * 1000)%Z
  /\ (timer (executeFFprobeCommand_launch args) = 600 * 1000)%Z
  /\ promise (executeCommand (ExecTimer :: after'))
     = Some (mkCommandResult false [] (Some (JS.lit "Command timed out")))
  /\ (1 <= kills (executeCommand (ExecTimer :: after')))%nat
  /\ promise (executeFFmpegCommand (before ++ Timer :: after))
     = Some (mkCommandResult false [] (Some (JS.lit "Command timed out")))
  /\ (1 <= kills (executeFFmpegCommand (before ++ Timer :: after)))%nat
  /\ promise (executeFFprobeCommand (before ++ Timer :: after))
     = Some (mkCommandResult false [] (Some (JS.lit "Command timed out")))
  /\ (1 <= kills (executeFFprobeCommand (before ++ Timer :: after)))%nat.
Proof.
  intros Hdata.
  assert (Hargv : promise (fold_left argv_on (before ++ Timer :: after) pending)
                  = Some timed_out
                  /\ (1 <= kills (fold_left argv_on (before ++ Timer :: after) pending))%nat).
  { rewrite fold_left_app, (argv_run_data _ _ Hdata). cbn [fold_left].
    match goal with |- context [fold_left argv_on after ?r] =>
      destruct (argv_run_settled after r timed_out eq_refl) as [P K] end.
    split; [exact P | exact K]. }
  assert (Hexec : promise (fold_left executeCommand_on (ExecTimer :: after') pending)
                  = Some timed_out
                  /\ (1 <= kills (fold_left executeCommand_on (ExecTimer :: after') pending))%nat).
  { cbn [fold_left].
    match goal with |- context [fold_left executeCommand_on after' ?r] =>
      destruct (exec_run_settled after' r timed_out eq_refl) as [P K] end.
    split; [exact P | exact K]. }
  destruct Hargv as [Ha1 Ha2], Hexec as [He1 He2].
  repeat split; try reflexivity; assumption.
Qed.

(** C3 at a transcoding call that had produced output on both streams. *)
Lemma timeout_resolves_timed_out_witness :
  promise (executeFFmpegCommand [StdoutData (JS.lit "frame=1"); StderrData (JS.lit "warn"); Timer; Close None])
  = Some (mkCommandResult false [] (Some (JS.lit "Command timed out"))).
Proof.
  exact (proj1 (proj2 (proj2 (proj2 (proj2 (proj2
    (timeout_resolves_timed_out [] [] None
       [StdoutData (JS.lit "frame=1"); StderrData (JS.lit "warn")] [Close None] []
       eq_refl))))))).
Defined.

(** C4: when the process of an argv runner closes with exit code [c] after
    any output chunks, the call resolves with the collected standard output
    followed by the collected standard error; with [success = true] and no
    error for [c = 0], and with [success = false] and the error
    [Process exited with code c] otherwise. *)
Theorem argv_close_result (before after : list spawn_event) (c : Z) :
  forallb is_data before = true ->
  let output := concat (stdout_of <$> before) ++ concat (stderr_of <$> before) in
  let expected :=
    if decide (c = 0%Z) then mkCommandResult true output None
    else mkCommandResult false output
           (Some (JS.lit "Process exited with code " ++ JS.of_Z c)) in
  promise (executeFFmpegCommand (before ++ Close (Some c) :: after)) = Some expected
  /\ promise (executeFFprobeCommand (before ++ Close (Some c) :: after)) = Some expected.
Proof.
  intros Hdata output expected.
  assert (H : promise (fold_left argv_on (before ++ Close (Some c) :: after) pending)
              = Some expected).
  { rewrite fold_left_app, (argv_run_data _ _ Hdata). cbn [fold_left].
    apply (argv_run_settled after). subst expected output.
    destruct (decide (c = 0%Z)) as [->|Hc]; [reflexivity|].
    destruct c; [contradiction | reflexivity | reflexivity]. }
  split; exact H.
Qed.

(** C4 at exit code 1, with a chunk on each stream. *)
Lemma argv_close_result_witness :
  promise (executeFFmpegCommand
             [StderrData (JS.lit "a"); StdoutData (JS.lit "b"); Close (Some 1%Z)])
  = Some (mkCommandResult false (JS.lit "ba")
            (Some (JS.lit "Process exited with code 1"))).
Proof.
  exact (proj1 (argv_close_result
                  [StderrData (JS.lit "a"); StdoutData (JS.lit "b")] [] 1 eq_refl)).
Defined.

End Runners.

(** ** Capture session *)

Section Capture.

Lemma others_killed_init : others_killed no_session.
Proof. split; [discriminate|]. intros h c H. destruct h; discriminate H. Qed.

Lemma alter_kill_lookup (l : list child) h i c :
  alter kill_child h l !! i = Some c ->
  exists c0, l !! i = Some c0
    /\ c = (if decide (h = i) then kill_child c0 else c0).
Proof.
  destruct (decide (h = i)) as [->|Hne].
  - rewrite list_lookup_alter_eq. destruct (l !! i) as [c0|]; [|discriminate].
    cbn. intros [= <-]. eauto.
  - rewrite list_lookup_alter_ne by exact Hne. eauto.
Qed.

Lemma startCapture_spawned command outputFile s :
  spawn_accepts (capture_launch command) = true ->
  startCapture command outputFile true s
  = let children1 :=
      match captureProcess s with
      | Some h => alter kill_child h (children s)
      | None => children s
      end in
    mkSession (children1 ++ [mkChild command 0]) (Some (length children1))
              (Some outputFile).
Proof. intros H. unfold startCapture. rewrite H. reflexivity. Qed.

Lemma startCapture_thrown command outputFile platform s :
  spawn_accepts (capture_launch command) && platform = false ->
  startCapture command outputFile platform s
  = mkSession match captureProcess s with
              | Some h => alter kill_child h (children s)
              | None => children s
              end
              (captureProcess s) (Some outputFile).
Proof. intros H. unfold startCapture. rewrite H. reflexivity. Qed.

Lemma others_killed_step s c : others_killed s -> others_killed (capture_step s c).
Proof.
  intros [Hb Hk]. destruct c as [command outputFile platform|]; cbn.
  - unfold startCapture.
    destruct (spawn_accepts (capture_launch command) && platform); split; cbn.
    + intros h [= <-]. rewrite length_app. cbn. lia.
    + intros h c Hl Hne.
      assert (Hh : (h < length (match captureProcess s with
                                | Some h0 => alter kill_child h0 (children s)
                                | None => children s end))%nat).
      { apply lookup_lt_Some in Hl. rewrite length_app in Hl. cbn in Hl.
        destruct (decide (h = length (match captureProcess s with
                                | Some h0 => alter kill_child h0 (children s)
                                | None => children s end))) as [->|]; [congruence | lia]. }
      rewrite lookup_app_l in Hl by exact Hh.
      destruct (captureProcess s) as [h0|] eqn:E.
      * apply alter_kill_lookup in Hl as (c0 & Hc0 & ->).
        destruct (decide (h0 = h)) as [->|Hd]; [cbn; lia|].
        apply (Hk h c0 Hc0). congruence.
      * apply (Hk h c Hl). discriminate.
    + intros h Hh. destruct (captureProcess s) as [h0|] eqn:E; [|discriminate Hh].
      rewrite length_alter. apply Hb. exact Hh.
    + intros h c Hl Hne. destruct (captureProcess s) as [h0|] eqn:E.
      * apply alter_kill_lookup in Hl as (c0 & Hc0 & ->).
        destruct (decide (h0 = h)) as [->|Hd]; [cbn; lia|].
        apply (Hk h c0 Hc0). congruence.
      * apply (Hk h c Hl). discriminate.
  - unfold stopCapture. destruct (captureProcess s) as [h0|] eqn:E; cbn.
    + split; cbn; [discriminate|]. intros h c Hl _.
      apply alter_kill_lookup in Hl as (c0 & Hc0 & ->).
      destruct (decide (h0 = h)) as [->|Hd]; [cbn; lia|].
      apply (Hk h c0 Hc0). congruence.
    + unfold others_killed. rewrite E. split; [exact Hb | exact Hk].
Qed.

(** C8: the session has one handle field; when [exec] accepts both commands
    and creates their processes, a second [startCapture] sends a kill to the
    process of the first, owns a new process running the second command and
    records the second output file only.  When [exec] throws (an empty
    command, a command with U+0000, a refusal of the platform) the call
    throws after the kill: the handle stays the one it was, now killed, and
    the new output file is recorded.  After any run of start and stop
    calls, throwing ones included, every process but the one the handle
    names has been sent a kill. *)
Theorem startCapture_supersedes :
  (forall (s : session) (cmd1 fileA cmd2 fileB : list N),
     spawn_accepts (capture_launch cmd1) = true ->
     spawn_accepts (capture_launch cmd2) = true ->
     let s1 := startCapture cmd1 fileA true s in
     let s2 := startCapture cmd2 fileB true s1 in
     exists h1 h2,
       captureProcess s1 = Some h1
       /\ children s1 !! h1 = Some (mkChild cmd1 0)
       /\ captureOutputFile s1 = Some fileA
       /\ captureProcess s2 = Some h2
       /\ h1 <> h2
       /\ children s2 !! h1 = Some (mkChild cmd1 1)
       /\ children s2 !! h2 = Some (mkChild cmd2 0)
       /\ captureOutputFile s2 = Some fileB)
  /\ (forall (s : session) (cmd fileB : list N) (platform : bool),
        spawn_accepts (capture_launch cmd) && platform = false ->
        let s2 := startCapture cmd fileB platform s in
        captureProcess s2 = captureProcess s
        /\ captureOutputFile s2 = Some fileB
        /\ length (children s2) = length (children s)
        /\ forall h c, captureProcess s = Some h -> children s !! h = Some c ->
                       children s2 !! h = Some (kill_child c))
  /\ (forall calls : list capture_call,
        others_killed (fold_left capture_step calls no_session)).
Proof.
  split; [|split].
  - intros s cmd1 fileA cmd2 fileB A1 A2 s1 s2.
    set (l1 := match captureProcess s with
               | Some h => alter kill_child h (children s)
               | None => children s end).
    assert (F1 : s1 = mkSession (l1 ++ [mkChild cmd1 0]) (Some (length l1)) (Some fileA)).
    { subst s1. rewrite (startCapture_spawned _ _ _ A1). reflexivity. }
    assert (E3 : alter kill_child (length l1) (l1 ++ [mkChild cmd1 0])
                 = l1 ++ [mkChild cmd1 1]).
    { rewrite <- (Nat.add_0_r (length l1)), alter_app_r. reflexivity. }
    assert (F2 : s2 = mkSession ((l1 ++ [mkChild cmd1 1]) ++ [mkChild cmd2 0])
                                (Some (length (l1 ++ [mkChild cmd1 1]))) (Some fileB)).
    { subst s2. rewrite (startCapture_spawned _ _ _ A2), F1. cbv zeta.
      cbn [captureProcess children]. rewrite E3. reflexivity. }
    exists (length l1), (length (l1 ++ [mkChild cmd1 1])).
    rewrite F1, F2. cbn [captureProcess children captureOutputFile].
    repeat split.
    + apply list_lookup_middle. reflexivity.
    + rewrite length_app. cbn. lia.
    + rewrite <- app_assoc. apply list_lookup_middle. reflexivity.
    + apply list_lookup_middle. reflexivity.
  - intros s cmd fileB platform Hno s2. subst s2.
    rewrite (startCapture_thrown _ _ _ _ Hno). cbn [captureProcess captureOutputFile children].
    split; [reflexivity|]. split; [reflexivity|]. split.
    + destruct (captureProcess s); [apply length_alter | reflexivity].
    + intros h c -> Hc. rewrite list_lookup_alter_eq, Hc. reflexivity.
  - intros calls.
    assert (H : forall s, others_killed s -> others_killed (fold_left capture_step calls s)).
    { induction calls as [|c calls IH]; intros s Hs; [exact Hs|].
      cbn. apply IH, others_killed_step, Hs. }
    apply H, others_killed_init.
Qed.

(** C8 at two screen captures started one after the other. *)
Lemma startCapture_supersedes_witness :
  let s2 := startCapture (JS.lit "ffmpeg -f x11grab -i :0 b.mp4") (JS.lit "b.mp4") true
              (startCapture (JS.lit "ffmpeg -f x11grab -i :0 a.mp4") (JS.lit "a.mp4") true
                 no_session) in
  captureProcess s2 = Some 1%nat
  /\ children s2 = [mkChild (JS.lit "ffmpeg -f x11grab -i :0 a.mp4") 1;
                    mkChild (JS.lit "ffmpeg -f x11grab -i :0 b.mp4") 0]
  /\ captureOutputFile s2 = Some (JS.lit "b.mp4").
Proof.
  destruct (proj1 startCapture_supersedes no_session
              (JS.lit "ffmpeg -f x11grab -i :0 a.mp4") (JS.lit "a.mp4")
              (JS.lit "ffmpeg -f x11grab -i :0 b.mp4") (JS.lit "b.mp4")
              eq_refl eq_refl) as (h1 & h2 & _ & _ & _ & H4 & _ & _ & _ & H8).
  cbv zeta. split; [reflexivity|]. split; [reflexivity | exact H8].
Defined.

End Capture.

(** ** The execute-ffmpeg-command tool *)

Section Tool.

(** C2: a command that, trimmed, begins neither with [ffmpeg] nor with
    [ffprobe] is answered with the validation failure ([success = false],
    [error = "Invalid command"]) and starts no process. *)
Theorem execute_rejects_unlisted (ctx : context) :
  JS.startsWith (JS.lit "ffmpeg") (JS.trim (command ctx)) = false ->
  JS.startsWith (JS.lit "ffprobe") (JS.trim (command ctx)) = false ->
  execute ctx
  = Return (mkEnvelope false (JS.lit "Only ffmpeg and ffprobe commands are allowed")
                       None None (Some (JS.lit "Invalid command")))
  /\ forall run, launches run (execute ctx) = [].
Proof.
  intros Hm Hp. unfold execute. rewrite Hm, Hp. split; reflexivity.
Qed.

(** C2 at a shell command that is not on the allow-list. *)
Lemma execute_rejects_unlisted_witness :
  execute (mkContext (JS.lit "  rm -rf uploads ") None None None)
  = Return (mkEnvelope false (JS.lit "Only ffmpeg and ffprobe commands are allowed")
                       None None (Some (JS.lit "Invalid command")))
  /\ forall run,
       launches run (execute (mkContext (JS.lit "  rm -rf uploads ") None None None)) = [].
Proof.
  exact (execute_rejects_unlisted
           (mkContext (JS.lit "  rm -rf uploads ") None None None) eq_refl eq_refl).
Defined.

(** C5 as stated fails: the command [ffmpeg] is accepted and begins with
    the name of the transcoding engine, and is run as it is, without [-y];
    so is a command in which another character follows the name. *)
Lemma overwrite_flag_not_always_injected :
  let ctx := mkContext (JS.lit "ffmpeg") None None None in
  let run := fun _ : launch => Fulfilled timed_out in
  JS.startsWith (JS.lit "ffmpeg") (command ctx) = true
  /\ launches run (execute ctx)
     = [mkLaunch true (JS.lit "ffmpeg") [] (Some (JS.lit "./uploads")) 600000]
  /\ launches run
       (execute (mkContext (JS.lit "ffmpeg-normalize in.mp4") None None None))
     = [mkLaunch true (JS.lit "ffmpeg-normalize in.mp4") []
                 (Some (JS.lit "./uploads")) 600000]
  /\ file <$> launches run (execute ctx) <> [with_overwrite_flag (command ctx)].
Proof.
  split; [reflexivity|]. split; [reflexivity|]. split; [reflexivity|].
  vm_compute. discriminate.
Qed.

Lemma trimStart_app_unit l a :
  JS.is_space a = false -> JS.trimStart (l ++ [a]) = JS.trimStart l ++ [a].
Proof.
  intros Ha. induction l as [|b l IH]; cbn; [rewrite Ha; reflexivity|].
  destruct (JS.is_space b); [exact IH | reflexivity].
Qed.

Lemma trimEnd_cons a s :
  JS.is_space a = false -> JS.trimEnd (a :: s) = a :: JS.trimEnd s.
Proof.
  intros Ha. unfold JS.trimEnd. cbn [rev].
  rewrite (trimStart_app_unit _ _ Ha). rewrite rev_app_distr. reflexivity.
Qed.

Lemma startsWith_refl_app p t : JS.startsWith p (p ++ t) = true.
Proof. induction p as [|a p IH]; [reflexivity|]. cbn. rewrite N.eqb_refl. exact IH. Qed.

Lemma trim_keeps_prefix p t :
  p <> [] -> forallb (fun a => negb (JS.is_space a)) p = true ->
  exists t', JS.trim (p ++ t) = p ++ t'.
Proof.
  intros Hne Hp. unfold JS.trim.
  assert (Hs : JS.trimStart (p ++ t) = p ++ t).
  { destruct p as [|a p]; [contradiction|]. cbn in Hp |- *.
    apply andb_prop in Hp as [Ha _]. apply negb_true_iff in Ha. rewrite Ha.
    reflexivity. }
  rewrite Hs. clear Hs Hne.
  induction p as [|a p IH]; [eauto|].
  cbn [forallb] in Hp. apply andb_prop in Hp as [Ha Hp]. apply negb_true_iff in Ha.
  destruct (IH Hp) as [t' E]. exists t'.
  change ((a :: p) ++ t) with (a :: (p ++ t)). rewrite (trimEnd_cons _ _ Ha), E.
  reflexivity.
Qed.

(** C5, as amended: a command that begins with [ffmpeg] passes the
    allow-list and is handed to the shell runner once: as [ffmpeg -y ] and
    then what the supplied command has behind the white-space character
    that follows [ffmpeg], or unchanged when no white-space character
    follows.  When [exec] starts it, that is the one shell command run and
    the envelope reports its result; when [exec] throws, no command is run
    and the tool returns [Failed to execute command]. *)
Theorem overwrite_flag_after_ffmpeg
    (ctx : context) (rest : list N) (run : launch -> awaited CommandResult) :
  command ctx = JS.lit "ffmpeg" ++ rest ->
  let l := mkLaunch true
             match rest with
             | c :: rest' =>
                 if JS.is_space c then JS.lit "ffmpeg -y " ++ rest' else command ctx
             | [] => command ctx
             end
             []
             (Some (cwd_or_default (workingDirectory ctx))) 600000 in
  (forall r, run l = Fulfilled r ->
     launches run (execute ctx) = [l]
     /\ returned run (execute ctx)
        = mkEnvelope (success r)
            (if success r then JS.lit "Command executed successfully"
             else JS.lit "Command failed")
            (Some (output r)) (outputFile ctx) (error r))
  /\ (forall m, run l = Thrown m ->
        launches run (execute ctx) = []
        /\ returned run (execute ctx)
           = mkEnvelope false (JS.lit "Failed to execute command") None None
               (Some (catch_message m))).
Proof.
  intros Hcmd l.
  assert (Hm : forall cmd, cmd = JS.lit "ffmpeg" ++ rest ->
            modifiedCommand cmd
            = match rest with
              | c :: rest' =>
                  if JS.is_space c then JS.lit "ffmpeg -y " ++ rest' else cmd
              | [] => cmd
              end).
  { intros cmd ->. unfold modifiedCommand. rewrite startsWith_refl_app.
    change (drop 6 (JS.lit "ffmpeg" ++ rest)) with rest. reflexivity. }
  assert (Ha : JS.startsWith (JS.lit "ffmpeg") (JS.trim (command ctx)) = true).
  { destruct (trim_keeps_prefix (JS.lit "ffmpeg") rest) as [t' E];
      [discriminate | reflexivity |].
    rewrite Hcmd, E. apply startsWith_refl_app. }
  assert (Hl : executeCommand_launch (modifiedCommand (command ctx)) (workingDirectory ctx)
               = l).
  { unfold executeCommand_launch. rewrite (Hm _ Hcmd). reflexivity. }
  unfold execute. rewrite Ha, Hl. cbn [negb andb launches returned].
  split.
  - intros r Hr. rewrite Hr. auto.
  - intros m Hr. rewrite Hr. auto.
Qed.

(** C5 at a transcoding command that [exec] starts. *)
Lemma overwrite_flag_after_ffmpeg_witness :
  launches (fun _ => Fulfilled timed_out)
           (execute (mkContext (JS.lit "ffmpeg -i in.mp4 out.mp4") None None None))
  = [mkLaunch true (JS.lit "ffmpeg -y -i in.mp4 out.mp4") []
              (Some (JS.lit "./uploads")) 600000].
Proof.
  exact (proj1 (proj1 (overwrite_flag_after_ffmpeg
                         (mkContext (JS.lit "ffmpeg -i in.mp4 out.mp4") None None None)
                         (JS.lit " -i in.mp4 out.mp4") (fun _ => Fulfilled timed_out)
                         eq_refl)
                  timed_out eq_refl)).
Defined.

End Tool.

(** * Further properties of [FFmpegUtils] *)

Import FFmpegUtilsFacts.

(** ** Runners: settlement, failure paths and kills *)

Section RunnerFacts.

Lemma resolve_cases v r :
  promise (resolve v r) = match promise r with None => Some v | Some w => Some w end
  /\ kills (resolve v r) = kills r
  /\ stdout (resolve v r) = stdout r /\ stderr (resolve v r) = stderr r.
Proof. unfold resolve. destruct (promise r) eqn:E; cbn; rewrite ?E; auto. Qed.

Lemma argv_on_promise r e :
  promise (argv_on r e) = promise r
  \/ (promise r = None /\ exists v, promise (argv_on r e) = Some v /\ coherent v).
Proof.
  destruct (promise r) as [w|] eqn:E.
  - left. rewrite <- E. destruct (argv_on_settled r e w E) as [H _]. congruence.
  - destruct e as [d|d|code|m|]; cbn.
    + left. exact E.
    + left. exact E.
    + right. split; [reflexivity|].
      destruct code as [[| |]|]; unfold resolve; rewrite E; cbn;
        eexists; (split; [reflexivity|]); unfold coherent; cbn; split; congruence.
    + right. split; [reflexivity|]. unfold resolve. rewrite E. cbn.
      eexists. split; [reflexivity|]. unfold coherent; cbn; split; congruence.
    + right. split; [reflexivity|]. unfold on_timeout, resolve. cbn. rewrite E.
      cbn. eexists. split; [reflexivity|]. unfold coherent; cbn; split; congruence.
Qed.

Lemma exec_on_promise r e :
  promise (executeCommand_on r e) = promise r
  \/ (promise r = None /\ exists v, promise (executeCommand_on r e) = Some v /\ coherent v).
Proof.
  destruct (promise r) as [w|] eqn:E.
  - left. rewrite <- E. destruct (exec_on_settled r e w E) as [H _]. congruence.
  - right. split; [reflexivity|].
    destruct e as [[m|] out errout|]; cbn; unfold on_timeout, resolve; cbn; rewrite E; cbn;
      eexists; (split; [reflexivity|]); unfold coherent; cbn; split; congruence.
Qed.

Lemma fold_coherent {E : Type} (step : runner -> E -> runner) :
  (forall r e, promise (step r e) = promise r
     \/ (promise r = None /\ exists v, promise (step r e) = Some v /\ coherent v)) ->
  forall events r,
    (forall v, promise r = Some v -> coherent v) ->
    forall v, promise (fold_left step events r) = Some v -> coherent v.
Proof.
  intros Hstep. induction events as [|e events IH]; intros r Hr v; cbn; [apply Hr|].
  apply IH. intros w Hw. destruct (Hstep r e) as [H|(_ & u & Hu & Hc)].
  - apply Hr. congruence.
  - congruence.
Qed.

(** X1: whatever events a runner receives, the result it settles with has
    [success = true] exactly when it has no [error]. *)
Theorem settled_result_coherent (events : list spawn_event) (events' : list exec_event)
    (v : CommandResult) :
  promise (executeFFmpegCommand events) = Some v
  \/ promise (executeFFprobeCommand events) = Some v
  \/ promise (executeCommand events') = Some v ->
  (success v = true <-> error v = None).
Proof.
  intros [H|[H|H]].
  - apply (fold_coherent argv_on argv_on_promise events pending); [discriminate | exact H].
  - apply (fold_coherent argv_on argv_on_promise events pending); [discriminate | exact H].
  - apply (fold_coherent executeCommand_on exec_on_promise events' pending);
      [discriminate | exact H].
Qed.

(** X1 at a run that closes with exit code 2. *)
Lemma settled_result_coherent_witness :
  success (mkCommandResult false (JS.lit "x") (Some (JS.lit "Process exited with code 2"))) = true
  <-> error (mkCommandResult false (JS.lit "x") (Some (JS.lit "Process exited with code 2"))) = None.
Proof.
  exact (settled_result_coherent [StdoutData (JS.lit "x"); Close (Some 2%Z); Timer] [] _
           (or_introl eq_refl)).
Defined.

(** X2: once the promise of a runner is settled, no later event (close,
    error, timer, completion callback) changes its value. *)
Theorem first_settlement_wins
    (first later : list spawn_event) (first' later' : list exec_event) (v : CommandResult) :
  (promise (executeFFmpegCommand first) = Some v ->
   promise (executeFFmpegCommand (first ++ later)) = Some v)
  /\ (promise (executeFFprobeCommand first) = Some v ->
      promise (executeFFprobeCommand (first ++ later)) = Some v)
  /\ (promise (executeCommand first') = Some v ->
      promise (executeCommand (first' ++ later')) = Some v).
Proof.
  unfold executeFFmpegCommand, executeFFprobeCommand, executeCommand.
  rewrite !fold_left_app. repeat split; intros H.
  - apply (argv_run_settled later _ v H).
  - apply (argv_run_settled later _ v H).
  - apply (exec_run_settled later' _ v H).
Qed.

(** X2 at a successful run followed by the timer and a late error. *)
Lemma first_settlement_wins_witness :
  promise (executeFFmpegCommand ([StdoutData (JS.lit "ok"); Close (Some 0%Z)] ++ [Timer; Error (JS.lit "late")]))
  = Some (mkCommandResult true (JS.lit "ok") None).
Proof.
  exact (proj1 (first_settlement_wins [StdoutData (JS.lit "ok"); Close (Some 0%Z)]
                  [Timer; Error (JS.lit "late")] [] [] _) eq_refl).
Defined.

Lemma argv_pending_iff events : forall r,
  promise r = None ->
  (promise (fold_left argv_on events r) = None <-> forallb is_data events = true).
Proof.
  induction events as [|e events IH]; intros r Hr; cbn [fold_left forallb].
  - split; auto.
  - destruct (is_data e) eqn:He.
    + cbn [andb]. apply IH. destruct e; try discriminate He; exact Hr.
    + cbn [andb]. split; [|discriminate]. intros H. exfalso.
      assert (Hs : exists v, promise (argv_on r e) = Some v).
      { destruct e as [d|d|code|m|]; try discriminate He; cbn;
          unfold on_timeout, resolve; cbn; rewrite Hr; try (destruct code as [[| |]|]); eauto. }
      destruct Hs as [v Hv].
      destruct (argv_run_settled events _ v Hv) as [Hp _]. congruence.
Qed.

(** X3: the promise of an argv runner is pending exactly as long as only
    output chunks have arrived; that of the shell runner exactly as long as
    nothing has. *)
Theorem pending_while_only_output (events : list spawn_event) (events' : list exec_event) :
  (promise (executeFFmpegCommand events) = None <-> forallb is_data events = true)
  /\ (promise (executeFFprobeCommand events) = None <-> forallb is_data events = true)
  /\ (promise (executeCommand events') = None <-> events' = []).
Proof.
  split; [|split].
  - apply argv_pending_iff. reflexivity.
  - apply argv_pending_iff. reflexivity.
  - destruct events' as [|e events']; [split; reflexivity|].
    split; [|discriminate]. intros H. exfalso.
    unfold executeCommand in H. cbn [fold_left] in H.
    assert (Hs : exists v, promise (executeCommand_on pending e) = Some v).
    { destruct e as [[m|] out errout|]; cbn; eauto. }
    destruct Hs as [v Hv].
    destruct (exec_run_settled events' _ v Hv) as [Hp _]. congruence.
Qed.

Lemma argv_kills events : forall r,
  kills (fold_left argv_on events r) = (kills r + length (filter (fun e => is_timer e = true) events))%nat.
Proof.
  induction events as [|e events IH]; intros r; cbn [fold_left]; [cbn; lia|].
  rewrite IH. destruct e as [d|d|code|m|].
  - rewrite filter_cons_False by (cbn; discriminate). reflexivity.
  - rewrite filter_cons_False by (cbn; discriminate). reflexivity.
  - rewrite filter_cons_False by (cbn; discriminate).
    cbn. destruct code as [[| |]|]; rewrite (proj1 (proj2 (resolve_cases _ _))); reflexivity.
  - rewrite filter_cons_False by (cbn; discriminate).
    cbn. rewrite (proj1 (proj2 (resolve_cases _ _))). reflexivity.
  - rewrite filter_cons_True by reflexivity.
    cbn [argv_on]. unfold on_timeout. rewrite (proj1 (proj2 (resolve_cases _ _))).
    cbn. lia.
Qed.

Lemma exec_kills events : forall r,
  kills (fold_left executeCommand_on events r)
  = (kills r + length (filter (fun e => is_exec_timer e = true) events))%nat.
Proof.
  induction events as [|e events IH]; intros r; cbn [fold_left]; [cbn; lia|].
  rewrite IH. destruct e as [[m|] out errout|].
  - rewrite filter_cons_False by (cbn; discriminate).
    cbn. rewrite (proj1 (proj2 (resolve_cases _ _))). reflexivity.
  - rewrite filter_cons_False by (cbn; discriminate).
    cbn. rewrite (proj1 (proj2 (resolve_cases _ _))). reflexivity.
  - rewrite filter_cons_True by reflexivity.
    cbn [executeCommand_on]. unfold on_timeout. rewrite (proj1 (proj2 (resolve_cases _ _))).
    cbn. lia.
Qed.

(** X4: the timer is never cancelled: a runner sends its process one kill
    per timer expiry, also when the call has already completed, and nothing
    else makes it send one. *)
Theorem kill_per_timer_expiry (events : list spawn_event) (events' : list exec_event) :
  kills (executeFFmpegCommand events) = length (filter (fun e => is_timer e = true) events)
  /\ kills (executeFFprobeCommand events) = length (filter (fun e => is_timer e = true) events)
  /\ kills (executeCommand events')
     = length (filter (fun e => is_exec_timer e = true) events').
Proof.
  unfold executeFFmpegCommand, executeFFprobeCommand, executeCommand.
  rewrite argv_kills, exec_kills. cbn. auto.
Qed.

(** X5: when an argv runner receives ['error'] while pending it resolves
    to a failure with the message of the error and an empty output, the
    collected output being dropped; when its process closes with a [null]
    exit code it resolves to a failure that keeps the collected output and
    says [Process exited with code null]. *)
Theorem failure_paths (before after : list spawn_event) (message : list N) :
  forallb is_data before = true ->
  promise (executeFFmpegCommand (before ++ Error message :: after))
  = Some (mkCommandResult false [] (Some message))
  /\ promise (executeFFprobeCommand (before ++ Error message :: after))
     = Some (mkCommandResult false [] (Some message))
  /\ promise (executeFFmpegCommand (before ++ Close None :: after))
     = Some (mkCommandResult false
               (concat (stdout_of <$> before) ++ concat (stderr_of <$> before))
               (Some (JS.lit "Process exited with code null")))
  /\ promise (executeFFprobeCommand (before ++ Close None :: after))
     = Some (mkCommandResult false
               (concat (stdout_of <$> before) ++ concat (stderr_of <$> before))
               (Some (JS.lit "Process exited with code null"))).
Proof.
  intros Hdata. unfold executeFFmpegCommand, executeFFprobeCommand.
  rewrite !fold_left_app, (argv_run_data _ _ Hdata). cbn [fold_left].
  repeat split; apply (argv_run_settled after); reflexivity.
Qed.

(** X5 at a spawn failure after a chunk of error output. *)
Lemma failure_paths_witness :
  promise (executeFFmpegCommand ([StderrData (JS.lit "partial")] ++ Error (JS.lit "spawn ffmpeg ENOENT") :: []))
  = Some (mkCommandResult false [] (Some (JS.lit "spawn ffmpeg ENOENT"))).
Proof.
  exact (proj1 (failure_paths [StderrData (JS.lit "partial")] []
                  (JS.lit "spawn ffmpeg ENOENT") eq_refl)).
Defined.

End RunnerFacts.

(** ** Capture session: stopping *)

Section CaptureFacts.

(** X6: stopping is idempotent: whatever the session, a stop that follows a
    stop answers [not_running] without a file name and changes nothing; so
    does a stop on a session that owns no process. *)
Theorem stopCapture_twice (s : session) :
  let s1 := snd (stopCapture s) in
  captureProcess s1 = None
  /\ stopCapture s1 = (mkStop (JS.lit "not_running") None, s1)
  /\ (captureProcess s = None ->
      stopCapture s = (mkStop (JS.lit "not_running") None, s)).
Proof.
  unfold stopCapture. destruct (captureProcess s) as [h|] eqn:E; cbn.
  - repeat split. discriminate.
  - rewrite E. repeat split.
Qed.

(** X6 at the initial session. *)
Lemma stopCapture_twice_witness :
  stopCapture no_session = (mkStop (JS.lit "not_running") None, no_session).
Proof.
  exact (proj2 (proj2 (stopCapture_twice no_session)) eq_refl).
Defined.

(** X7: a stop that follows a start whose [exec] created the process
    answers [stopped] with the file name of that start (none when the file
    name is the empty string), leaves the session without process and file,
    and has sent one kill to the process the start created.  After a start
    whose [exec] threw, a stop on a session that owned no process answers
    [not_running] and the file name of the failed start stays recorded; on
    a session that owned one it answers [stopped] with the new file name. *)
Theorem start_then_stop (s : session) (command outputFile : list N) (platform : bool) :
  (spawn_accepts (capture_launch command) && platform = true ->
   let stopped := stopCapture (startCapture command outputFile platform s) in
   status (fst stopped) = JS.lit "stopped"
   /\ filename (fst stopped) = (if decide (outputFile = []) then None else Some outputFile)
   /\ captureProcess (snd stopped) = None
   /\ captureOutputFile (snd stopped) = None
   /\ length (children (snd stopped)) = S (length (children s))
   /\ last (children (snd stopped)) = Some (mkChild command 1))
  /\ (spawn_accepts (capture_launch command) && platform = false ->
      let stopped := stopCapture (startCapture command outputFile platform s) in
      length (children (snd stopped)) = length (children s)
      /\ (captureProcess s = None ->
          status (fst stopped) = JS.lit "not_running"
          /\ filename (fst stopped) = None
          /\ captureProcess (snd stopped) = None
          /\ captureOutputFile (snd stopped) = Some outputFile)
      /\ (forall h, captureProcess s = Some h ->
          status (fst stopped) = JS.lit "stopped"
          /\ filename (fst stopped)
             = (if decide (outputFile = []) then None else Some outputFile)
          /\ captureProcess (snd stopped) = None
          /\ captureOutputFile (snd stopped) = None)).
Proof.
  split.
  - intros Hok stopped. subst stopped.
    unfold stopCapture, startCapture. rewrite Hok.
    cbn [captureProcess captureOutputFile children fst snd status filename].
    set (l := match captureProcess s with
              | Some h => alter kill_child h (children s)
              | None => children s end).
    assert (Hl : length l = length (children s)).
    { subst l. destruct (captureProcess s); [apply length_alter | reflexivity]. }
    repeat split.
    + destruct outputFile; reflexivity.
    + rewrite length_alter, length_app, Hl. cbn. lia.
    + rewrite <- (Nat.add_0_r (length l)), alter_app_r. cbn. apply last_snoc.
  - intros Hno stopped. subst stopped.
    unfold stopCapture, startCapture. rewrite Hno.
    cbn [captureProcess captureOutputFile children].
    destruct (captureProcess s) as [h0|]; cbn [fst snd status filename children
      captureProcess captureOutputFile].
    + split; [rewrite !length_alter; reflexivity|]. split; [discriminate|].
      intros h _. repeat split. destruct outputFile; reflexivity.
    + split; [reflexivity|]. split; [auto | discriminate].
Qed.

(** X7 at a capture that starts, and at one with an empty command. *)
Lemma start_then_stop_witness :
  status (fst (stopCapture (startCapture (JS.lit "ffmpeg -i :0 cap.mp4") (JS.lit "cap.mp4")
                              true no_session))) = JS.lit "stopped"
  /\ captureOutputFile (snd (stopCapture (startCapture [] (JS.lit "cap.mp4") true no_session)))
     = Some (JS.lit "cap.mp4").
Proof.
  split.
  - exact (proj1 (proj1 (start_then_stop no_session (JS.lit "ffmpeg -i :0 cap.mp4")
                           (JS.lit "cap.mp4") true) eq_refl)).
  - destruct (proj2 (start_then_stop no_session [] (JS.lit "cap.mp4") true) eq_refl)
      as (_ & H & _).
    exact (proj2 (proj2 (proj2 (H eq_refl)))).
Defined.

(** X8: after any run of start and stop calls from the initial session a
    file name is recorded whenever a process is owned; and when every start
    of the run got its process from [exec], a file name is recorded exactly
    when a process is owned, and the owned process has been sent no kill. *)
Theorem session_fields_agree (calls : list capture_call) :
  let s := fold_left capture_step calls no_session in
  (captureOutputFile s = None -> captureProcess s = None)
  /\ (all_spawned calls = true ->
      (captureOutputFile s = None <-> captureProcess s = None)
      /\ (forall h, captureProcess s = Some h ->
          exists c, children s !! h = Some c /\ child_kills c = 0%nat)).
Proof.
  cbv zeta. split.
  - assert (H : forall s,
              (captureOutputFile s = None -> captureProcess s = None) ->
              captureOutputFile (fold_left capture_step calls s) = None ->
              captureProcess (fold_left capture_step calls s) = None).
    { induction calls as [|c calls IH]; intros s Hs; [exact Hs|].
      cbn [fold_left]. apply IH.
      destruct c as [command outputFile platform|]; cbn [capture_step].
      - unfold startCapture.
        destruct (spawn_accepts (capture_launch command) && platform); cbn; discriminate.
      - unfold stopCapture. destruct (captureProcess s) as [h|] eqn:E; cbn.
        + reflexivity.
        + intros _. exact E. }
    apply H. reflexivity.
  - assert (H : forall s, all_spawned calls = true ->
              ((captureOutputFile s = None <-> captureProcess s = None)
               /\ (forall h, captureProcess s = Some h ->
                   exists c, children s !! h = Some c /\ child_kills c = 0%nat)) ->
              (captureOutputFile (fold_left capture_step calls s) = None
               <-> captureProcess (fold_left capture_step calls s) = None)
              /\ (forall h, captureProcess (fold_left capture_step calls s) = Some h ->
                  exists c, children (fold_left capture_step calls s) !! h = Some c
                            /\ child_kills c = 0%nat)).
    { induction calls as [|c calls IH]; intros s Hall Hs; [exact Hs|].
      unfold all_spawned in Hall. cbn [forallb] in Hall.
      apply andb_prop in Hall as [Hc Hall].
      cbn [fold_left]. apply (IH _ Hall). destruct Hs as [Hf Hp].
      destruct c as [command outputFile platform|]; cbn [capture_step].
      - unfold startCapture. rewrite Hc. cbn. split; [split; discriminate|].
        intros h [= <-]. eexists.
        split; [apply list_lookup_middle; reflexivity | reflexivity].
      - unfold stopCapture. destruct (captureProcess s) as [h|] eqn:E; cbn.
        + split; [split; reflexivity | discriminate].
        + rewrite E. split; [exact Hf | discriminate]. }
    intros Hall. apply (H no_session Hall). split; [split; reflexivity | discriminate].
Qed.

(** X8 at a start followed by a stop and another start. *)
Lemma session_fields_agree_witness :
  let s := fold_left capture_step
             [Start (JS.lit "ffmpeg -i :0 a.mp4") (JS.lit "a.mp4") true; Stop;
              Start (JS.lit "ffmpeg -i :0 b.mp4") (JS.lit "b.mp4") true] no_session in
  captureOutputFile s = None <-> captureProcess s = None.
Proof.
  exact (proj1 (proj2 (session_fields_agree
                         [Start (JS.lit "ffmpeg -i :0 a.mp4") (JS.lit "a.mp4") true; Stop;
                          Start (JS.lit "ffmpeg -i :0 b.mp4") (JS.lit "b.mp4") true])
                  eq_refl)).
Defined.

End CaptureFacts.

(** ** Probe parser: what is kept and what is ignored *)

Section ParserFacts.

Lemma split_pieces_without c sep s :
  JS.includes c s = false ->
  forallb (fun l => negb (JS.includes c l)) (JS.split sep s) = true.
Proof.
  unfold JS.includes. induction s as [|a s IH]; [reflexivity|].
  cbn [existsb JS.split]. intros [Ha Hs]%orb_false_elim. specialize (IH Hs).
  destruct (a =? sep).
  - cbn [forallb]. rewrite IH. reflexivity.
  - destruct (JS.split sep s) as [|p ps]; cbn [forallb existsb] in *.
    + rewrite Ha. reflexivity.
    + rewrite Ha. exact IH.
Qed.

Lemma parse_lines_without_separator lines :
  forallb (fun l => negb (JS.includes 61 l)) lines = true ->
  forall b, exists b',
    parse_lines (mkParser (mkProbe ∅ []) ∅ b) lines = Some (mkParser (mkProbe ∅ []) ∅ b').
Proof.
  induction lines as [|l lines IH]; intros H b; [cbn; eauto|].
  cbn [forallb] in H. apply andb_prop in H as [Hl Hs]. apply negb_true_iff in Hl.
  cbn [parse_lines]. unfold parse_line. rewrite Hl.
  destruct (JS.startsWith (JS.lit "[FORMAT]") l); [apply (IH Hs)|].
  destruct (JS.startsWith (JS.lit "[STREAM]") l); [apply (IH Hs)|].
  apply (IH Hs).
Qed.

Lemma parse_without_separator_eq (output : list N) :
  JS.includes 61 output = false ->
  parseFFprobeOutput output = Parsed (mkProbe ∅ []).
Proof.
  intros H. unfold parseFFprobeOutput.
  destruct (parse_lines_without_separator _ (split_pieces_without 61 10 output H) false)
    as [b' E].
  unfold parser_init. rewrite E. reflexivity.
Qed.

(** X9: a text without any [=] parses to the empty format map and no
    stream record, whatever markers it has. *)
Theorem parse_without_separator (output : list N) :
  JS.includes 61 output = false ->
  parseFFprobeOutput output = Parsed (mkProbe ∅ []).
Proof. exact (parse_without_separator_eq output). Qed.

(** X9 at a probe text printed with colons. *)
Lemma parse_without_separator_witness :
  parseFFprobeOutput (JS.join 10 [JS.lit "[FORMAT]"; JS.lit "duration: 12.3";
                                  JS.lit "[STREAM]"; JS.lit "codec_name h264"])
  = Parsed (mkProbe ∅ []).
Proof.
  exact (parse_without_separator
           (JS.join 10 [JS.lit "[FORMAT]"; JS.lit "duration: 12.3";
                        JS.lit "[STREAM]"; JS.lit "codec_name h264"]) eq_refl).
Defined.

Lemma parse_line_irrelevant st line :
  relevant line = false -> parse_line st line = Some st.
Proof.
  unfold relevant, parse_line.
  intros [[Hf Hs]%orb_false_elim Hi]%orb_false_elim. rewrite Hf, Hs, Hi. reflexivity.
Qed.

Lemma parse_lines_filter lines : forall st,
  parse_lines st (filter (fun l => relevant l = true) lines) = parse_lines st lines.
Proof.
  induction lines as [|l lines IH]; intros st; [reflexivity|].
  destruct (relevant l) eqn:Hl.
  - rewrite filter_cons_True by exact Hl. cbn [parse_lines].
    destruct (parse_line st l); [apply IH | reflexivity].
  - rewrite filter_cons_False by (rewrite Hl; discriminate). cbn [parse_lines].
    rewrite (parse_line_irrelevant _ _ Hl). apply IH.
Qed.

Lemma forallb_filter_keep {A} (p : A -> bool) (q : A -> bool) (l : list A) :
  forallb p l = true -> forallb p (filter (fun x => q x = true) l) = true.
Proof.
  induction l as [|x l IH]; [reflexivity|].
  cbn [forallb]. intros [Hx Hl]%andb_prop.
  destruct (q x) eqn:Hq.
  - rewrite filter_cons_True by exact Hq. cbn [forallb]. rewrite Hx. cbn. auto.
  - rewrite filter_cons_False by (rewrite Hq; discriminate). auto.
Qed.

(** X10: lines that neither begin with a marker nor contain [=] can be
    deleted from a text without changing what it parses to. *)
Theorem parse_ignores_other_lines (lines : list (list N)) :
  forallb (fun l => negb (JS.includes 10 l)) lines = true ->
  parseFFprobeOutput (JS.join 10 (filter (fun l => relevant l = true) lines))
  = parseFFprobeOutput (JS.join 10 lines).
Proof.
  intros H. unfold parseFFprobeOutput.
  rewrite (split_join _ _ H), (split_join _ _ (forallb_filter_keep _ relevant _ H)).
  assert (E : forall ls : list (list N),
            parse_lines parser_init (match ls with [] => [[]] | _ => ls end)
            = parse_lines parser_init ls).
  { intros [|l ls]; reflexivity. }
  rewrite !E, parse_lines_filter. reflexivity.
Qed.

(** X10 at a text with a banner, a closing tag and an empty last line. *)
Lemma parse_ignores_other_lines_witness :
  parseFFprobeOutput
    (JS.join 10 (filter (fun l => relevant l = true)
                   [JS.lit "ffprobe version 6"; JS.lit "[STREAM]"; JS.lit "index=0";
                    JS.lit "[/STREAM]"; []]))
  = parseFFprobeOutput
      (JS.join 10 [JS.lit "ffprobe version 6"; JS.lit "[STREAM]"; JS.lit "index=0";
                   JS.lit "[/STREAM]"; []]).
Proof.
  exact (parse_ignores_other_lines
           [JS.lit "ffprobe version 6"; JS.lit "[STREAM]"; JS.lit "index=0";
            JS.lit "[/STREAM]"; []] eq_refl).
Defined.

Lemma length_emitted cur : (length (emitted cur) <= 1)%nat.
Proof. unfold emitted. destruct (0 <? size cur)%nat; cbn; lia. Qed.

Lemma parse_line_within st line st' n :
  parse_line st line = Some st' ->
  within_markers st n ->
  within_markers st'
    (if JS.startsWith (JS.lit "[STREAM]") line then S n else n).
Proof.
  intros H Hn. destruct (JS.startsWith (JS.lit "[STREAM]") line) eqn:Hs.
  - rewrite (parse_line_stream_marker _ _ Hs) in H. injection H as <-.
    cbn [within_markers result]. rewrite streams_push_current, length_app.
    destruct n as [|m]; cbn [within_markers] in Hn.
    + destruct Hn as (-> & -> & _). unfold emitted. rewrite map_size_empty. cbn. lia.
    + pose proof (length_emitted (currentStream st)). lia.
  - unfold parse_line in H. rewrite Hs in H.
    destruct (JS.startsWith (JS.lit "[FORMAT]") line).
    { injection H as <-. destruct n; cbn in *; [tauto | exact Hn]. }
    destruct (JS.includes 61 line); [|injection H as <-; exact Hn].
    destruct (JS.split_limit 61 2 line) as [|k [|v rest]]; try discriminate H.
    destruct (inStream st) eqn:Hin.
    + injection H as <-. destruct n; cbn in *; [|exact Hn].
      destruct Hn as (_ & _ & Hf). congruence.
    + injection H as <-. destruct n; cbn in *; [tauto | exact Hn].
Qed.

Lemma parse_lines_within lines : forall st st' n,
  parse_lines st lines = Some st' ->
  within_markers st n ->
  within_markers st' (n + stream_markers lines).
Proof.
  induction lines as [|l lines IH]; intros st st' n H Hn; cbn [parse_lines] in H.
  - injection H as <-. unfold stream_markers. cbn. rewrite Nat.add_0_r. exact Hn.
  - destruct (parse_line st l) as [st1|] eqn:E; [|discriminate H].
    pose proof (parse_line_within _ _ _ _ E Hn) as H1.
    pose proof (IH _ _ _ H H1) as H2. unfold stream_markers in *.
    destruct (JS.startsWith (JS.lit "[STREAM]") l) eqn:Hs.
    + rewrite filter_cons_True by exact Hs. cbn [length].
      replace (n + S (length (filter (λ l0, JS.startsWith (JS.lit "[STREAM]") l0 = true) lines)))%nat
        with (S n + length (filter (λ l0, JS.startsWith (JS.lit "[STREAM]") l0 = true) lines))%nat by lia.
      exact H2.
    + rewrite filter_cons_False by (rewrite Hs; discriminate). exact H2.
Qed.

(** X11: every text parses, and to no more stream records than it has
    lines beginning with [[STREAM]]. *)
Theorem streams_bounded_by_markers (output : list N) :
  exists r, parseFFprobeOutput output = Parsed r
    /\ (length (streams r) <= stream_markers (JS.split 10 output))%nat.
Proof.
  unfold parseFFprobeOutput.
  destruct (parse_lines_total (JS.split 10 output) parser_init) as [st E].
  rewrite E. eexists. split; [reflexivity|].
  assert (H0 : within_markers parser_init 0) by (cbn; auto).
  pose proof (parse_lines_within _ _ _ _ E H0) as H. cbn [Nat.add] in H.
  unfold parse_finish. rewrite streams_push_current, length_app.
  destruct (stream_markers (JS.split 10 output)) as [|m]; cbn [within_markers] in H.
  - destruct H as (-> & -> & _). unfold emitted. rewrite map_size_empty. cbn. lia.
  - pose proof (length_emitted (currentStream st)). lia.
Qed.

Lemma trimStart_idem s : JS.trimStart (JS.trimStart s) = JS.trimStart s.
Proof.
  induction s as [|c s IH]; [reflexivity|]. cbn.
  destruct (JS.is_space c) eqn:E; [exact IH|]. cbn. rewrite E. reflexivity.
Qed.

Lemma trimEnd_idem s : JS.trimEnd (JS.trimEnd s) = JS.trimEnd s.
Proof. unfold JS.trimEnd. rewrite rev_involutive, trimStart_idem. reflexivity. Qed.

Lemma trimStart_trimEnd s :
  JS.trimStart (JS.trimEnd (JS.trimStart s)) = JS.trimEnd (JS.trimStart s).
Proof.
  induction s as [|c s IH]; [reflexivity|]. cbn [JS.trimStart].
  destruct (JS.is_space c) eqn:E; [exact IH|].
  rewrite (trimEnd_cons _ _ E). cbn. rewrite E. reflexivity.
Qed.

Lemma trim_idem s : JS.trim (JS.trim s) = JS.trim s.
Proof. unfold JS.trim. rewrite trimStart_trimEnd, trimEnd_idem. reflexivity. Qed.

Lemma set_property_trimmed k v m :
  trimmed_map m -> trimmed_map (set_property (JS.trim k) (JS.trim v) m).
Proof.
  intros Hm k' v'. unfold set_property.
  destruct (decide (JS.trim k = JS.lit "__proto__")) as [E|E]; [apply Hm|].
  destruct (decide (JS.trim k = k')) as [<-|Hne].
  - rewrite lookup_insert_eq. intros [= <-]. rewrite !trim_idem. auto.
  - rewrite lookup_insert_ne by exact Hne. apply Hm.
Qed.

Lemma trimmed_empty : trimmed_map ∅.
Proof. intros k v H. rewrite lookup_empty in H. discriminate H. Qed.

Lemma push_current_trimmed cur r :
  trimmed_map cur -> trimmed_map (format r) -> Forall trimmed_map (streams r) ->
  trimmed_map (format (push_current cur r))
  /\ Forall trimmed_map (streams (push_current cur r)).
Proof.
  intros Hc Hf Hs. unfold push_current. destruct (0 <? size cur)%nat; cbn; [|auto].
  split; [exact Hf|]. apply Forall_app. auto.
Qed.

Lemma parse_line_trimmed st line st' :
  parse_line st line = Some st' -> trimmed_state st -> trimmed_state st'.
Proof.
  unfold parse_line, trimmed_state. intros H (Hf & Hs & Hc).
  destruct (JS.startsWith (JS.lit "[FORMAT]") line).
  { injection H as <-. cbn. auto. }
  destruct (JS.startsWith (JS.lit "[STREAM]") line).
  { injection H as <-. destruct (push_current_trimmed _ _ Hc Hf Hs). cbn.
    auto using trimmed_empty. }
  destruct (JS.includes 61 line); [|injection H as <-; auto].
  destruct (JS.split_limit 61 2 line) as [|k [|v rest]]; try discriminate H.
  destruct (inStream st); injection H as <-; cbn; auto using set_property_trimmed.
Qed.

Lemma parse_lines_trimmed lines : forall st st',
  parse_lines st lines = Some st' -> trimmed_state st -> trimmed_state st'.
Proof.
  induction lines as [|l lines IH]; intros st st' H Hst; cbn in H.
  - injection H as <-. exact Hst.
  - destruct (parse_line st l) as [st1|] eqn:E; [|discriminate H].
    exact (IH _ _ H (parse_line_trimmed _ _ _ E Hst)).
Qed.

(** X12: in every parse result, every key and every value of the format
    map and of each stream record is trimmed, and no key is [__proto__]. *)
Theorem parsed_entries_trimmed (output : list N) :
  exists r, parseFFprobeOutput output = Parsed r
    /\ trimmed_map (format r) /\ Forall trimmed_map (streams r).
Proof.
  unfold parseFFprobeOutput.
  destruct (parse_lines_total (JS.split 10 output) parser_init) as [st E].
  rewrite E. eexists. split; [reflexivity|].
  assert (H0 : trimmed_state parser_init).
  { split; [|split]; try apply trimmed_empty. constructor. }
  destruct (parse_lines_trimmed _ _ _ E H0) as (Hf & Hs & Hc).
  apply push_current_trimmed; assumption.
Qed.

(** X13: a key=value line whose key is not [__proto__] makes its key map
    to its value in the active map (replacing an earlier value), leaves the
    other keys of that map, the other map, the mode and the emitted records
    as they were. *)
Theorem key_value_line_stored (st : parser) (line : list N) :
  JS.startsWith (JS.lit "[FORMAT]") line = false ->
  JS.startsWith (JS.lit "[STREAM]") line = false ->
  JS.includes 61 line = true ->
  JS.trim (JS.before 61 line) <> JS.lit "__proto__" ->
  exists st',
    parse_line st line = Some st'
    /\ active_map st' !! JS.trim (JS.before 61 line)
       = Some (JS.trim (JS.before 61 (JS.after 61 line)))
    /\ (forall k, k <> JS.trim (JS.before 61 line) ->
                  active_map st' !! k = active_map st !! k)
    /\ inactive_map st' = inactive_map st
    /\ inStream st' = inStream st
    /\ streams (result st') = streams (result st).
Proof.
  intros Hf Hs Hi Hk. rewrite (parse_line_key_value st line Hf Hs Hi).
  eexists. split; [reflexivity|]. unfold active_map, inactive_map, set_property.
  destruct (decide _) as [E|_]; [contradiction|].
  destruct (inStream st); cbn; rewrite lookup_insert_eq; repeat split; try reflexivity;
    intros k Hne; apply lookup_insert_ne; congruence.
Qed.

(** X13 at a format line that replaces an earlier value. *)
Lemma key_value_line_stored_witness :
  exists st',
    parse_line (mkParser (mkProbe {[ JS.lit "size" := JS.lit "1" ]} []) ∅ false)
               (JS.lit " size = 2048 ") = Some st'
    /\ active_map st' !! JS.lit "size" = Some (JS.lit "2048").
Proof.
  destruct (key_value_line_stored
              (mkParser (mkProbe {[ JS.lit "size" := JS.lit "1" ]} []) ∅ false)
              (JS.lit " size = 2048 ") eq_refl eq_refl eq_refl)
    as (st' & H1 & H2 & _).
  - vm_compute. discriminate.
  - exists st'. split; [exact H1 | exact H2].
Defined.

(** X14: a key=value line whose trimmed key is [__proto__] stores nothing:
    deleting it from the lines changes no state of the loop. *)
Theorem proto_line_ignored (before after : list (list N)) (line : list N) (st : parser) :
  JS.startsWith (JS.lit "[FORMAT]") line = false ->
  JS.startsWith (JS.lit "[STREAM]") line = false ->
  JS.includes 61 line = true ->
  JS.trim (JS.before 61 line) = JS.lit "__proto__" ->
  parse_lines st (before ++ line :: after) = parse_lines st (before ++ after).
Proof.
  intros Hf Hs Hi Hk. rewrite !parse_lines_app.
  destruct (parse_lines st before) as [st1|]; [|reflexivity].
  cbn [parse_lines]. rewrite (parse_line_key_value st1 line Hf Hs Hi).
  unfold set_property. rewrite Hk.
  destruct (decide _) as [_|E]; [|contradiction].
  destruct st1 as [[f ss] cur []]; reflexivity.
Qed.

(** X14 inside a stream section. *)
Lemma proto_line_ignored_witness :
  parse_lines parser_init ([JS.lit "[STREAM]"] ++ JS.lit "__proto__=x" :: [JS.lit "index=0"])
  = parse_lines parser_init ([JS.lit "[STREAM]"] ++ [JS.lit "index=0"]).
Proof.
  exact (proto_line_ignored [JS.lit "[STREAM]"] [JS.lit "index=0"] (JS.lit "__proto__=x")
           parser_init eq_refl eq_refl eq_refl eq_refl).
Defined.

End ParserFacts.

(** ** Sanitizer: fixed points, length and case *)

Section SanitizerFacts.

(** X15: a non-empty name made of lower-case letters, digits, dots and
    hyphens only is returned as it is. *)
Theorem sanitizeFilename_keeps_clean_names (x : list N) :
  x <> [] ->
  forallb (fun c => JS.between 97 122 c || JS.between 48 57 c || (c =? 46) || (c =? 45)) x = true ->
  sanitizeFilename x = x.
Proof.
  intros Hne Hx.
  assert (Hc : forall c, (JS.between 97 122 c || JS.between 48 57 c || (c =? 46) || (c =? 45)) = true ->
                 output_char c = true /\ is_underscore c = false).
  { intros c H. unfold output_char. rewrite H. split; [reflexivity|].
    unfold is_underscore, underscore, JS.between in *.
    destruct (N.eqb_spec c 95) as [->|]; [discriminate H | reflexivity]. }
  assert (Hclean : clean x = true).
  { unfold clean.
    assert (Hall : forallb output_char x = true /\ forallb (fun c => negb (is_underscore c)) x = true).
    { clear Hne. induction x as [|c x IH]; [auto|]. cbn [forallb] in *.
      apply andb_prop in Hx as [H1 H2]. destruct (Hc c H1) as [-> ->].
      destruct (IH H2) as [-> ->]. auto. }
    destruct Hall as [-> Hnu]. cbn [andb].
    assert (Hd : double_underscore x = false /\ leading_underscore x = false
                 /\ trailing_underscore x = false).
    { clear Hne Hx. induction x as [|c x IH]; [auto|]. cbn [forallb] in Hnu.
      apply andb_prop in Hnu as [H1 H2]. apply negb_true_iff in H1.
      destruct (IH H2) as (D & L & T). cbn [double_underscore leading_underscore].
      rewrite H1, D. repeat split.
      destruct x as [|d x]; [cbn; exact H1 | exact T]. }
    destruct Hd as (-> & -> & ->). reflexivity. }
  unfold sanitizeFilename. rewrite (clean_fixed x Hclean).
  destruct x; [contradiction | reflexivity].
Qed.

(** X15 at an ordinary file name. *)
Lemma sanitizeFilename_keeps_clean_names_witness :
  sanitizeFilename (JS.lit "clip-01.final.mp4") = JS.lit "clip-01.final.mp4".
Proof.
  apply sanitizeFilename_keeps_clean_names; [discriminate | reflexivity].
Defined.

Lemma collapse_length s : (length (collapse_underscores s) <= length s)%nat.
Proof.
  induction s as [|c s IH]; [reflexivity|]. cbn [collapse_underscores].
  destruct (is_underscore c); [|cbn; lia].
  destruct s as [|d s]; [reflexivity|].
  destruct (is_underscore d); cbn [length] in *; lia.
Qed.

Lemma strip_trailing_length s : (length (strip_trailing s) <= length s)%nat.
Proof.
  induction s as [|c s IH]; [reflexivity|].
  destruct s as [|d s]; [cbn; destruct (is_underscore c); cbn; lia|].
  rewrite strip_trailing_cons. cbn [length] in *. lia.
Qed.

(** X16: the rewriting steps never lengthen a name; the sanitized name is
    at most as long as the input, or as the 13 characters of the default
    name. *)
Theorem sanitizeFilename_length (x : list N) :
  (length (sanitized x) <= length x)%nat
  /\ (length (sanitizeFilename x) <= Nat.max (length x) 13)%nat.
Proof.
  assert (H : (length (sanitized x) <= length x)%nat).
  { unfold sanitized, strip_edges.
    etransitivity; [apply strip_trailing_length|].
    etransitivity; [|etransitivity; [apply (collapse_length (toLowerCase (replace_disallowed x)))|]].
    - unfold strip_leading. destruct (collapse_underscores _) as [|c s]; [reflexivity|].
      destruct (is_underscore c); cbn; lia.
    - unfold toLowerCase, replace_disallowed. rewrite !length_fmap. reflexivity. }
  split; [exact H|]. unfold sanitizeFilename.
  destruct (sanitized x); [cbn; lia | lia].
Qed.

(** X17: names that differ only in the case of the letters A-Z sanitize to
    the same name. *)
Theorem sanitizeFilename_ignores_case (x : list N) :
  sanitizeFilename (lower_unit <$> x) = sanitizeFilename x.
Proof.
  assert (E : toLowerCase (replace_disallowed (lower_unit <$> x))
              = toLowerCase (replace_disallowed x));
    [|unfold sanitizeFilename, sanitized; rewrite E; reflexivity].
  unfold toLowerCase, replace_disallowed. rewrite <- !list_fmap_compose.
  apply list_fmap_ext. intros _ c _. cbn.
  unfold lower_unit at 2 3. destruct (JS.between 65 90 c) eqn:Hu; [|reflexivity].
  assert (Ha : allowed_char c = true).
  { unfold allowed_char. rewrite Hu. destruct (JS.between 97 122 c); reflexivity. }
  assert (Hb : allowed_char (c + 32) = true /\ JS.between 65 90 (c + 32) = false).
  { unfold allowed_char, JS.between in *.
    apply andb_prop in Hu as [H1 H2]. apply N.leb_le in H1, H2.
    assert (H3 : (97 <=? c + 32) = true) by (apply N.leb_le; lia).
    assert (H4 : (c + 32 <=? 122) = true) by (apply N.leb_le; lia).
    assert (H5 : (c + 32 <=? 90) = false) by (apply N.leb_gt; lia).
    rewrite H3, H4, H5. split; [reflexivity | apply andb_false_r]. }
  destruct Hb as [Hb1 Hb2]. rewrite Ha, Hb1. unfold lower_unit. rewrite Hu, Hb2.
  reflexivity.
Qed.

End SanitizerFacts.

(** * Properties of the argument-vector tools *)

Import Tools.

Section ToolFacts.

Lemma report_names_output w done failed failure out l :
  last (args l) = Some out ->
  names_output_of_last_run w (AwaitRunner l (report done failed failure out)).
Proof.
  intros Hl. unfold names_output_of_last_run. cbn [eval launches].
  destruct (run w l) as [r|m] eqn:E; cbn [report eval launches].
  - destruct (success r) eqn:Hs; cbn.
    + split; [split; eauto|]. intros f [= <-]. exists l, r. auto.
    + split; [split; [intros [? [=]] | discriminate]|]. discriminate.
  - cbn. split; [split; [intros [? [=]] | discriminate]|]. discriminate.
Qed.

Lemma failure_names_no_output w (e : envelope) :
  env_success e = false -> env_outputFile e = None ->
  names_output_of_last_run w (Return e).
Proof.
  intros Hs Ho. unfold names_output_of_last_run. cbn [eval]. rewrite Hs, Ho.
  split; [split; [intros [? [=]] | discriminate]|]. discriminate.
Qed.

Lemma names_output_after w l (k : awaited CommandResult -> task envelope) :
  names_output_of_last_run w (k (run w l)) ->
  names_output_of_last_run w (AwaitRunner l k).
Proof.
  intros [H1 H2]. unfold names_output_of_last_run. cbn [eval launches].
  split; [exact H1|]. intros f Hf. destruct (H2 f Hf) as (l' & r & Hl & Hrest).
  exists l', r. split; [|exact Hrest].
  destruct (run w l); [|exact Hl].
  destruct (launches w (k _)) as [|x xs]; [discriminate Hl | exact Hl].
Qed.

Section WithNumbers.
Context {number : Type} (show : number -> list N).

(** X18: trim, frame rate, resize, extract, thumbnails, conversion and
    join name an output file exactly when they report success, and the name
    is the last argument of the last process started, which succeeded. *)
Theorem tools_name_output_on_success (w : world)
    (inputFilename a b c : list N) (x y : number) (flag : bool)
    (fmt : image_format) (filenames : list (list N)) (output : option (list N)) :
  names_output_of_last_run w (trimVideoTool inputFilename a b)
  /\ names_output_of_last_run w (changeFrameRateTool inputFilename a)
  /\ names_output_of_last_run w (resizeVideoTool inputFilename a b c)
  /\ names_output_of_last_run w (extractBitstreamTool inputFilename a)
  /\ names_output_of_last_run w (generateThumbnailsTool show inputFilename a x y flag b c)
  /\ names_output_of_last_run w (convertToGifWebpTool show inputFilename a b fmt x y)
  /\ names_output_of_last_run w (joinFilesTool filenames output).
Proof.
  split; [|split; [|split; [|split; [|split; [|split]]]]].
  - apply report_names_output. reflexivity.
  - apply report_names_output. reflexivity.
  - apply report_names_output. reflexivity.
  - unfold extractBitstreamTool. destruct (stream_specifier a).
    + apply report_names_output. reflexivity.
    + apply failure_names_no_output; reflexivity.
  - unfold generateThumbnailsTool. destruct flag; apply report_names_output; reflexivity.
  - unfold convertToGifWebpTool. destruct fmt.
    + apply names_output_after.
      destruct (run w _) as [r|m].
      * destruct (success r); cbn [negb].
        -- apply report_names_output. reflexivity.
        -- apply failure_names_no_output; reflexivity.
      * apply failure_names_no_output; reflexivity.
    + apply report_names_output. reflexivity.
  - unfold joinFilesTool, names_output_of_last_run. cbn [eval launches].
    destruct (write w _ _) as [u|m].
    + apply report_names_output. reflexivity.
    + apply failure_names_no_output; reflexivity.
Qed.

End WithNumbers.

Lemma ffmpeg_ok args : launch_ok (ffmpeg args).
Proof. repeat split. left. reflexivity. Qed.

Lemma ffprobe_ok args : launch_ok (ffprobe args).
Proof. repeat split. right. reflexivity. Qed.

Lemma report_shell_free w done failed failure out a :
  shell_free w (report done failed failure out a).
Proof. destruct a; constructor. Qed.

Lemma await_shell_free {A} w l (k : awaited CommandResult -> task A) :
  launch_ok l -> shell_free w (k (run w l)) -> shell_free w (AwaitRunner l k).
Proof.
  intros Hl Hk. unfold shell_free in *. cbn [launches].
  destruct (run w l); [constructor; assumption | exact Hk].
Qed.

Lemma batch_loop_shell_free w operation filenames : forall results,
  shell_free w (batch_loop operation filenames results).
Proof.
  induction filenames as [|f fs IH]; intros results; [constructor|].
  cbn [batch_loop]. destruct (batch_args operation f) as [args|]; [|apply IH].
  apply await_shell_free; [apply ffmpeg_ok|].
  destruct (run w _); [apply IH | constructor].
Qed.

Section WithNumbers2.
Context {number : Type} (show : number -> list N).

(** X19: every process the nine argument-vector tools start is [ffmpeg] or
    [ffprobe] started without a shell, under the 600-second timer. *)
Theorem tools_never_use_a_shell (w : world)
    (inputFilename a b c : list N) (x y : number) (flag : bool)
    (fmt : image_format) (filenames : list (list N)) (output : option (list N)) :
  shell_free w (trimVideoTool inputFilename a b)
  /\ shell_free w (changeFrameRateTool inputFilename a)
  /\ shell_free w (resizeVideoTool inputFilename a b c)
  /\ shell_free w (extractBitstreamTool inputFilename a)
  /\ shell_free w (generateThumbnailsTool show inputFilename a x y flag b c)
  /\ shell_free w (convertToGifWebpTool show inputFilename a b fmt x y)
  /\ shell_free w (joinFilesTool filenames output)
  /\ shell_free w (analyzeMediaTool inputFilename)
  /\ shell_free w (batchProcessTool filenames a).
Proof.
  split; [|split; [|split; [|split; [|split; [|split; [|split; [|split]]]]]]].
  - apply await_shell_free; [apply ffmpeg_ok | apply report_shell_free].
  - apply await_shell_free; [apply ffmpeg_ok | apply report_shell_free].
  - apply await_shell_free; [apply ffmpeg_ok | apply report_shell_free].
  - unfold extractBitstreamTool. destruct (stream_specifier a); [|constructor].
    apply await_shell_free; [apply ffmpeg_ok | apply report_shell_free].
  - apply await_shell_free; [apply ffmpeg_ok | apply report_shell_free].
  - unfold convertToGifWebpTool. destruct fmt.
    + apply await_shell_free; [apply ffmpeg_ok|].
      destruct (run w _) as [r|m]; [|constructor].
      destruct (success r); cbn [negb]; [|constructor].
      apply await_shell_free; [apply ffmpeg_ok | apply report_shell_free].
    + apply await_shell_free; [apply ffmpeg_ok | apply report_shell_free].
  - unfold joinFilesTool, shell_free. cbn [launches].
    destruct (write w _ _); [|constructor].
    apply await_shell_free; [apply ffmpeg_ok | apply report_shell_free].
  - apply await_shell_free; [apply ffprobe_ok|].
    destruct (run w _) as [r|m]; [destruct (success r)|]; constructor.
  - apply batch_loop_shell_free.
Qed.

End WithNumbers2.

Lemma launches_report w l done failed failure out :
  launches w (AwaitRunner l (report done failed failure out))
  = match run w l with Fulfilled _ => [l] | Thrown _ => [] end.
Proof. cbn [launches]. destruct (run w l); reflexivity. Qed.

Lemma attempts_report w l done failed failure out :
  attempts w (AwaitRunner l (report done failed failure out)) = [l].
Proof. cbn [attempts]. destruct (run w l); reflexivity. Qed.

Lemma eval_report_thrown w l done failed failure out m :
  run w l = Thrown m ->
  eval w (AwaitRunner l (report done failed failure out))
  = mkEnvelope false failure None None (Some (catch_message m)).
Proof. intros H. cbn [eval]. rewrite H. reflexivity. Qed.

(** X20: for the stream types [video], [audio] and [subtitle]
    extract-bitstream calls the [ffmpeg] runner once, mapping the first
    video, audio or subtitle stream respectively; that call starts the one
    process of the tool, or throws, in which case no process is started and
    the tool returns [Failed to extract bitstream].  For any other stream
    type the runner is not called, no process is started and the tool
    returns the validation failure. *)
Theorem extractBitstream_validates (w : world) (inputFilename streamType : list N) :
  (forall kind specifier,
     (kind, specifier) ∈ [(JS.lit "video", JS.lit "0:v:0");
                          (JS.lit "audio", JS.lit "0:a:0");
                          (JS.lit "subtitle", JS.lit "0:s:0")] ->
     streamType = kind ->
     let l := ffmpeg [JS.lit "-i"; inputFilename; JS.lit "-map"; specifier;
                      JS.lit "-c"; JS.lit "copy";
                      JS.lit "extracted_" ++ kind ++ JS.lit "_" ++ inputFilename] in
     attempts w (extractBitstreamTool inputFilename streamType) = [l]
     /\ (forall r, run w l = Fulfilled r ->
           launches w (extractBitstreamTool inputFilename streamType) = [l])
     /\ (forall m, run w l = Thrown m ->
           launches w (extractBitstreamTool inputFilename streamType) = []
           /\ eval w (extractBitstreamTool inputFilename streamType)
              = mkEnvelope false (JS.lit "Failed to extract bitstream") None None
                  (Some (catch_message m))))
  /\ (streamType ∉ [JS.lit "video"; JS.lit "audio"; JS.lit "subtitle"] ->
      attempts w (extractBitstreamTool inputFilename streamType) = []
      /\ launches w (extractBitstreamTool inputFilename streamType) = []
      /\ eval w (extractBitstreamTool inputFilename streamType)
         = mkEnvelope false (JS.lit "Invalid stream type") None None
             (Some (JS.lit "Stream type must be video, audio, or subtitle"))).
Proof.
  split.
  - assert (Hone : forall kind specifier,
              stream_specifier kind = Some specifier ->
              let l := ffmpeg [JS.lit "-i"; inputFilename; JS.lit "-map"; specifier;
                               JS.lit "-c"; JS.lit "copy";
                               JS.lit "extracted_" ++ kind ++ JS.lit "_" ++ inputFilename] in
              attempts w (extractBitstreamTool inputFilename kind) = [l]
              /\ (forall r, run w l = Fulfilled r ->
                    launches w (extractBitstreamTool inputFilename kind) = [l])
              /\ (forall m, run w l = Thrown m ->
                    launches w (extractBitstreamTool inputFilename kind) = []
                    /\ eval w (extractBitstreamTool inputFilename kind)
                       = mkEnvelope false (JS.lit "Failed to extract bitstream") None None
                           (Some (catch_message m)))).
    { intros kind specifier Hk l. unfold extractBitstreamTool. rewrite Hk. fold l.
      rewrite attempts_report, launches_report.
      split; [reflexivity|]. split.
      - intros r ->. reflexivity.
      - intros m Hm. rewrite (eval_report_thrown _ _ _ _ _ _ _ Hm), Hm. auto. }
    intros kind specifier H ->.
    repeat (apply elem_of_cons in H as [[= -> ->]|H]); [| | |apply elem_of_nil in H; contradiction];
      apply Hone; reflexivity.
  - intros H. unfold extractBitstreamTool, stream_specifier.
    destruct (decide (streamType = JS.lit "video")) as [->|H1]; [exfalso; apply H; set_solver|].
    destruct (decide (streamType = JS.lit "audio")) as [->|H2]; [exfalso; apply H; set_solver|].
    destruct (decide (streamType = JS.lit "subtitle")) as [->|H3]; [exfalso; apply H; set_solver|].
    repeat split.
Qed.

(** X20 at a stream type in the wrong case, and at an audio extraction in
    a world that throws the calls [spawn] refuses. *)
Lemma extractBitstream_validates_witness :
  let w := mkWorld (fun l => if spawn_accepts l then Fulfilled timed_out
                             else Thrown (Some (JS.lit "invalid argument")))
                   (fun _ _ => Thrown None) in
  launches w (extractBitstreamTool (JS.lit "in.mkv") (JS.lit "Video")) = []
  /\ length (launches w (extractBitstreamTool (JS.lit "in.mkv") (JS.lit "audio"))) = 1%nat
  /\ launches w (extractBitstreamTool (JS.lit "in" ++ [0] ++ JS.lit ".mkv") (JS.lit "audio"))
     = [].
Proof.
  intros w. split; [|split].
  - destruct (proj2 (extractBitstream_validates w (JS.lit "in.mkv") (JS.lit "Video")))
      as (_ & H & _); [|exact H].
    intros H. repeat (apply elem_of_cons in H as [H|H]; [discriminate H|]).
    apply elem_of_nil in H. exact H.
  - destruct (proj1 (extractBitstream_validates w (JS.lit "in.mkv") (JS.lit "audio"))
                (JS.lit "audio") (JS.lit "0:a:0")) as (_ & H & _);
      [set_solver | reflexivity |].
    rewrite (H timed_out eq_refl). reflexivity.
  - destruct (proj1 (extractBitstream_validates w (JS.lit "in" ++ [0] ++ JS.lit ".mkv")
                       (JS.lit "audio"))
                (JS.lit "audio") (JS.lit "0:a:0")) as (_ & _ & H);
      [set_solver | reflexivity |].
    exact (proj1 (H (Some (JS.lit "invalid argument")) eq_refl)).
Defined.




Lemma batch_loop_exception w operation before : forall results f after args message,
  Forall (fun g => forall a, batch_args operation g = Some a ->
                   exists r, run w (ffmpeg a) = Fulfilled r) before ->
  batch_args operation f = Some args ->
  run w (ffmpeg args) = Thrown message ->
  eval w (batch_loop operation (before ++ f :: after) results)
  = mkBatch false (JS.lit "Failed to process batch") None (Some (catch_message message))
  /\ launches w (batch_loop operation (before ++ f :: after) results)
     = omap (fun g => ffmpeg <$> batch_args operation g) before
  /\ attempts w (batch_loop operation (before ++ f :: after) results)
     = omap (fun g => ffmpeg <$> batch_args operation g) before ++ [ffmpeg args].
Proof.
  induction before as [|g before IH]; intros results f after args message Hb Ha Hr.
  - cbn [app batch_loop omap list_omap]. rewrite Ha. cbn [eval launches attempts].
    rewrite Hr. auto.
  - apply Forall_cons in Hb as [Hg Hb].
    cbn [app batch_loop omap list_omap].
    destruct (batch_args operation g) as [a|] eqn:Eg.
    + destruct (Hg a eq_refl) as [r Er].
      cbn [eval launches attempts fmap option_fmap option_map].
      rewrite Er. destruct (IH (batch_push results g r) f after args message Hb Ha Hr)
        as (-> & -> & ->). auto.
    + cbn [fmap option_fmap option_map].
      apply (IH _ f after args message Hb Ha Hr).
Qed.

(** X22: when the runner call for some file of batch-process throws, no
    process is started for that file, the tool reports failure without
    results, the entries of the earlier files being dropped, and the runner
    is not called for the later files. *)
Theorem batch_stops_at_exception (w : world) (before after : list (list N))
    (f operation : list N) (args : list (list N)) (message : option (list N)) :
  Forall (fun g => forall a, batch_args operation g = Some a ->
                   exists r, run w (ffmpeg a) = Fulfilled r) before ->
  batch_args operation f = Some args ->
  run w (ffmpeg args) = Thrown message ->
  let e := eval w (batchProcessTool (before ++ f :: after) operation) in
  batch_success e = false
  /\ batch_message e = JS.lit "Failed to process batch"
  /\ batch_results e = None
  /\ batch_error e = Some (catch_message message)
  /\ launches w (batchProcessTool (before ++ f :: after) operation)
     = omap (fun g => ffmpeg <$> batch_args operation g) before
  /\ attempts w (batchProcessTool (before ++ f :: after) operation)
     = omap (fun g => ffmpeg <$> batch_args operation g) before ++ [ffmpeg args].
Proof.
  intros Hb Ha Hr e. subst e. unfold batchProcessTool.
  destruct (batch_loop_exception w operation before [] f after args message Hb Ha Hr)
    as (-> & -> & ->).
  repeat split.
Qed.

(** X22 at three files, the second of which has U+0000 in its name, in a
    world that throws the calls [spawn] refuses. *)
Lemma batch_stops_at_exception_witness :
  let w := mkWorld (fun l => if spawn_accepts l then Fulfilled timed_out
                             else Thrown (Some (JS.lit "invalid argument")))
                   (fun _ _ => Thrown None) in
  let files := [JS.lit "a.mp4"] ++ (JS.lit "b" ++ [0] ++ JS.lit ".mp4") :: [JS.lit "c.mp4"] in
  batch_results (eval w (batchProcessTool files (JS.lit "resize"))) = None
  /\ length (launches w (batchProcessTool files (JS.lit "resize"))) = 1%nat.
Proof.
  intros w files.
  destruct (batch_stops_at_exception w [JS.lit "a.mp4"] [JS.lit "c.mp4"]
              (JS.lit "b" ++ [0] ++ JS.lit ".mp4") (JS.lit "resize")
              [JS.lit "-i"; JS.lit "b" ++ [0] ++ JS.lit ".mp4"; JS.lit "-vf";
               JS.lit "scale=1280:720"; JS.lit "resized_" ++ JS.lit "b" ++ [0] ++ JS.lit ".mp4"]
              (Some (JS.lit "invalid argument")))
    as (_ & _ & H3 & _ & H5 & _).
  - constructor; [|constructor]. intros a [= <-]. exists timed_out. reflexivity.
  - reflexivity.
  - reflexivity.
  - split; [exact H3 | fold files in H5; rewrite H5; reflexivity].
Defined.

Section WithNumbers3.
Context {number : Type} (show : number -> list N).


End WithNumbers3.







End ToolFacts.
